(** * Safety-net impact analysis: the [SafetyNetAnalyzer] engine

    A shallow embedding of [src/utils/safetyNetAnalyzer.js]: configuration
    validation, stiffness derivation, the bisection solver for the energy
    balance and the stress / safety-factor derivation of [analyze].

    The file has four parts: the engine, method by method as the source
    has it; the vocabulary the properties are stated in; lemmas; and the
    properties C1 to C10 of the engine.

    Number model.  A JavaScript number is modelled as an extended real
    ([Js.num]): a real value, one of the two infinities, or NaN.  The
    arithmetic is exact on real values (rounding and overflow of binary64
    are abstracted away, and zero carries no sign, so [x / 0] takes the
    sign of [x]); the IEEE special cases the program can reach through
    division, [Math.sqrt], [Math.min]/[Math.max] and comparisons are kept.
    The numeric fields of a configuration are real numbers. *)

From Stdlib Require Import Reals Lra Lia List String Ascii Bool ZArith.
Import ListNotations.

Local Open Scope R_scope.

(** * The engine *)

(** ** JavaScript numbers *)

Module Js.

Inductive num : Type :=
| Fin (x : R)
| PInf
| NInf
| NaN.

Definition neg (a : num) : num :=
  match a with
  | Fin x => Fin (- x)
  | PInf => NInf
  | NInf => PInf
  | NaN => NaN
  end.

(** [signed x i]: the infinity [i] multiplied by the sign of [x]. *)
Definition signed (x : R) (i : num) : num :=
  if Rlt_dec 0 x then i
  else if Rlt_dec x 0 then neg i
  else NaN.

Definition add (a b : num) : num :=
  match a, b with
  | NaN, _ | _, NaN => NaN
  | Fin x, Fin y => Fin (x + y)
  | PInf, NInf | NInf, PInf => NaN
  | PInf, _ | _, PInf => PInf
  | NInf, _ | _, NInf => NInf
  end.

Definition sub (a b : num) : num := add a (neg b).

Definition mul (a b : num) : num :=
  match a, b with
  | NaN, _ | _, NaN => NaN
  | Fin x, Fin y => Fin (x * y)
  | Fin x, i | i, Fin x => signed x i
  | PInf, PInf | NInf, NInf => PInf
  | PInf, NInf | NInf, PInf => NInf
  end.

Definition div (a b : num) : num :=
  match a, b with
  | NaN, _ | _, NaN => NaN
  | Fin x, Fin y =>
      if Req_dec_T y 0 then signed x PInf else Fin (x / y)
  | Fin _, _ => Fin 0
  | i, Fin y => if Rlt_dec y 0 then neg i else i
  | _, _ => NaN
  end.

(** [a ** n] for a literal exponent [n]. *)
Definition pow (a : num) (n : nat) : num :=
  match n with
  | O => Fin 1
  | _ =>
      match a with
      | Fin x => Fin (x ^ n)
      | PInf => PInf
      | NInf => if Nat.even n then PInf else NInf
      | NaN => NaN
      end
  end.

Definition sqrt (a : num) : num :=
  match a with
  | Fin x => if Rlt_dec x 0 then NaN else Fin (R_sqrt.sqrt x)
  | PInf => PInf
  | _ => NaN
  end.

Definition atan (a : num) : num :=
  match a with
  | Fin x => Fin (Ratan.atan x)
  | PInf => Fin (PI / 2)
  | NInf => Fin (- (PI / 2))
  | NaN => NaN
  end.

Definition cos (a : num) : num :=
  match a with Fin x => Fin (Rtrigo_def.cos x) | _ => NaN end.

Definition sin (a : num) : num :=
  match a with Fin x => Fin (Rtrigo_def.sin x) | _ => NaN end.

Definition abs (a : num) : num :=
  match a with
  | Fin x => Fin (Rabs x)
  | PInf | NInf => PInf
  | NaN => NaN
  end.

(** Comparisons: every comparison with NaN is false. *)
Definition lt (a b : num) : bool :=
  match a, b with
  | NaN, _ | _, NaN => false
  | Fin x, Fin y => if Rlt_dec x y then true else false
  | _, NInf => false
  | NInf, _ => true
  | PInf, _ => false
  | _, PInf => true
  end.

Definition le (a b : num) : bool :=
  match a, b with
  | NaN, _ | _, NaN => false
  | Fin x, Fin y => if Rle_dec x y then true else false
  | NInf, _ => true
  | _, NInf => false
  | _, PInf => true
  | PInf, _ => false
  end.

Definition gt (a b : num) : bool := lt b a.
Definition ge (a b : num) : bool := le b a.

(** [Math.max] and [Math.min] of two arguments: NaN if either is NaN. *)
Definition max (a b : num) : num :=
  match a, b with
  | NaN, _ | _, NaN => NaN
  | _, _ => if lt a b then b else a
  end.

Definition min (a b : num) : num :=
  match a, b with
  | NaN, _ | _, NaN => NaN
  | _, _ => if lt b a then b else a
  end.

(** [!a] on a number: true for zero and NaN. *)
Definition not (a : num) : bool :=
  match a with
  | Fin x => if Req_dec_T x 0 then true else false
  | NaN => true
  | _ => false
  end.

Definition exp (a : num) : num :=
  match a with
  | Fin x => Fin (Rtrigo_def.exp x)
  | PInf => PInf
  | NInf => Fin 0
  | NaN => NaN
  end.

End Js.

Declare Scope js_scope.
Delimit Scope js_scope with js.
Bind Scope js_scope with Js.num.

Coercion Js.Fin : R >-> Js.num.

Infix "+" := Js.add : js_scope.
Infix "-" := Js.sub : js_scope.
Infix "*" := Js.mul : js_scope.
Infix "/" := Js.div : js_scope.
Infix "**" := Js.pow (at level 30, right associativity) : js_scope.
Infix "<" := Js.lt : js_scope.
Infix "<=" := Js.le : js_scope.
Infix ">" := Js.gt : js_scope.
Infix ">=" := Js.ge : js_scope.

(** ** Configuration *)

Record Material : Type := {
  material_name : string;
  elastic_modulus : R;
  yield_strength : R;
  density : R;
  cross_section_area : R;
  strain_limit : R
}.

Record Geometry : Type := {
  net_span : R;
  num_strands : R;
  installation_angle : R;
  safety_factor_min : R;
  max_deflection_ratio : R
}.

Record Impact : Type := {
  mass : R;
  fall_height : R;
  impact_velocity : R
}.

Record Analysis : Type := {
  analysis_type : string;
  max_iterations : R;
  convergence_tolerance : R;
  include_damping : bool;
  damping_ratio : R
}.

Record Config : Type := {
  scenario_name : string;
  material : Material;
  geometry : Geometry;
  impact : Impact;
  analysis : Analysis
}.

(** ** Results *)

Record StructuralResponse : Type := {
  max_deflection : Js.num;
  max_stress : Js.num;
  safety_factor : Js.num;
  strain : Js.num
}.

Record DesignLimits : Type := {
  max_deflection_limit : Js.num;
  min_safety_factor : Js.num;
  max_strain_limit : Js.num
}.

Record DesignChecks : Type := {
  deflection_ok : bool;
  stress_ok : bool;
  strain_ok : bool;
  overall_safe : bool
}.

Record Stiffness : Type := {
  k1 : Js.num;
  k2 : Js.num;
  k3 : Js.num
}.

Record Results : Type := {
  result_scenario_name : string;
  input_parameters : Config;
  structural_response : StructuralResponse;
  design_limits : DesignLimits;
  design_checks : DesignChecks;
  stiffness_coefficients : Stiffness
}.

(** ** The analyzer object *)

(** [results] is [None] for the empty object the constructor stores. *)
Record SafetyNetAnalyzer : Type := {
  config : Config;
  g : R;
  results : option Results
}.

Definition getDefaultConfig : Config := {|
  scenario_name := "Custom Scenario";
  material := {|
    material_name := "Custom Material";
    elastic_modulus := 3.5e9;
    yield_strength := 8.0e7;
    density := 1150;
    cross_section_area := 2.0e-6;
    strain_limit := 0.1 |};
  geometry := {|
    net_span := 4.0;
    num_strands := 50;
    installation_angle := 0.0;
    safety_factor_min := 2.0;
    max_deflection_ratio := 0.15 |};
  impact := {|
    mass := 100.0;
    fall_height := 3.0;
    impact_velocity := sqrt (2 * 9.81 * 3.0) |};
  analysis := {|
    analysis_type := "impact";
    max_iterations := 100;
    convergence_tolerance := 1e-6;
    include_damping := false;
    damping_ratio := 0.05 |}
|}.

(** [new SafetyNetAnalyzer(config)]. *)
Definition new (cfg : option Config) : SafetyNetAnalyzer := {|
  config := match cfg with Some c => c | None => getDefaultConfig end;
  g := 9.81;
  results := None
|}.

Definition updateConfig (this : SafetyNetAnalyzer) (cfg : Config)
  : SafetyNetAnalyzer :=
  {| config := cfg; g := g this; results := results this |}.

(** ** Validation *)

(** [if (!x || x <= 0) errors.push(msg)]. *)
Definition check_positive (x : R) (msg : string) (errors : list string)
  : list string :=
  if (Js.not x || (x <= 0)%js)%bool then errors ++ [msg] else errors.

Definition validateConfig (this : SafetyNetAnalyzer) : list string :=
  let material := material (config this) in
  let geometry := geometry (config this) in
  let impact := impact (config this) in
  let errors := [] in
  let errors := check_positive (elastic_modulus material)
                  "Material elastic modulus must be positive" errors in
  let errors := check_positive (yield_strength material)
                  "Material yield strength must be positive" errors in
  let errors := check_positive (net_span geometry)
                  "Net span must be positive" errors in
  let errors := check_positive (num_strands geometry)
                  "Number of strands must be positive" errors in
  let errors := check_positive (mass impact)
                  "Impact mass must be positive" errors in
  let errors := check_positive (fall_height impact)
                  "Fall height must be positive" errors in
  errors.

(** ** Stiffness coefficients *)

Definition _calculateStiffnessCoefficients (this : SafetyNetAnalyzer)
  : Stiffness :=
  let material := material (config this) in
  let geometry := geometry (config this) in
  let delta_est : Js.num := (0.1 * net_span geometry)%js in
  let theta := Js.atan (delta_est / (net_span geometry / 2))%js in
  let k1 := ((num_strands geometry * elastic_modulus material
              * cross_section_area material / net_span geometry)
             * (Js.cos theta ** 2))%js in
  let k2 := ((num_strands geometry * elastic_modulus material
              * cross_section_area material / (net_span geometry ** 2))
             * Js.sin theta * (Js.cos theta ** 2))%js in
  let k3 := ((num_strands geometry * elastic_modulus material
              * cross_section_area material / (net_span geometry ** 3))
             * (Js.sin theta ** 2) * (Js.cos theta ** 2))%js in
  {| k1 := k1; k2 := k2; k3 := k3 |}.

(** ** Deflection solver *)

Definition energyEquation (this : SafetyNetAnalyzer) (k1 k2 k3 : Js.num)
    (delta : Js.num) : Js.num :=
  let impact := impact (config this) in
  (0.5 * k1 * delta ** 2
   + (1 / 3) * k2 * delta ** 3
   + 0.25 * k3 * delta ** 4
   - mass impact * g this * fall_height impact)%js.

Definition tolerance : R := 1e-6.
Definition maxIterations : nat := 100.

(** How the [for] loop ends: by the [return] in its body, or by its
    condition failing, with the bracket it has then. *)
Inductive loop_exit : Type :=
| Return (v : Js.num)
| Fallthrough (left right : Js.num).

(** The loop body, run for the [iters] iterations that remain. *)
Fixpoint bisection_loop (f : Js.num -> Js.num) (iters : nat)
    (left right : Js.num) : loop_exit :=
  match iters with
  | O => Fallthrough left right
  | S iters' =>
      let mid := ((left + right) / 2)%js in
      let f_mid := f mid in
      if (Js.abs f_mid < tolerance)%js then Return (Js.max 0 mid)
      else if (f_mid > 0)%js then bisection_loop f iters' left mid
      else bisection_loop f iters' mid right
  end.

Definition _calculateMaxDeflection (this : SafetyNetAnalyzer)
    (k1 k2 k3 : Js.num) : Js.num :=
  let impact := impact (config this) in
  let geometry := geometry (config this) in
  let left : Js.num := 0 in
  let right := (net_span geometry * 0.5)%js in
  match bisection_loop (energyEquation this k1 k2 k3) maxIterations
          left right with
  | Return v => v
  | Fallthrough _ _ =>
      Js.min (mass impact * g this * fall_height impact / k1)%js
             (net_span geometry * 0.5)%js
  end.

(** ** Stress *)

Definition _calculateMaxStress (this : SafetyNetAnalyzer)
    (delta_max : Js.num) : Js.num :=
  let material := material (config this) in
  let geometry := geometry (config this) in
  let strain := ((Js.sqrt (net_span geometry ** 2 + delta_max ** 2)
                  - net_span geometry) / net_span geometry)%js in
  (elastic_modulus material * strain)%js.

(** ** [analyze] *)

(** A call either returns a value or throws [new Error(msg)]. *)
Inductive completion (A : Type) : Type :=
| Normal (a : A)
| Throw (msg : string).
Arguments Normal {A} a.
Arguments Throw {A} msg.

Definition analyze (this : SafetyNetAnalyzer)
  : completion Results * SafetyNetAnalyzer :=
  let errors := validateConfig this in
  if (0 <? List.length errors)%nat then
    (Throw ("Configuration errors: " ++ String.concat ", " errors)%string,
     this)
  else
    let material := material (config this) in
    let geometry := geometry (config this) in
    let ks := _calculateStiffnessCoefficients this in
    let delta_max := _calculateMaxDeflection this (k1 ks) (k2 ks) (k3 ks) in
    let sigma_max := _calculateMaxStress this delta_max in
    let safety_factor :=
      if (sigma_max > 0)%js
      then (yield_strength material / sigma_max)%js
      else Js.PInf in
    let strain := ((Js.sqrt (net_span geometry ** 2 + delta_max ** 2)
                    - net_span geometry) / net_span geometry)%js in
    let max_deflection_limit :=
      (max_deflection_ratio geometry * net_span geometry)%js in
    let design_checks := {|
      deflection_ok := (delta_max <= max_deflection_limit)%js;
      stress_ok := (safety_factor >= safety_factor_min geometry)%js;
      strain_ok := (strain <= strain_limit material)%js;
      overall_safe :=
        ((delta_max <= max_deflection_limit)%js
         && (safety_factor >= safety_factor_min geometry)%js
         && (strain <= strain_limit material)%js)%bool |} in
    let res := {|
      result_scenario_name := scenario_name (config this);
      input_parameters := config this;
      structural_response := {|
        max_deflection := delta_max;
        max_stress := sigma_max;
        safety_factor := safety_factor;
        strain := strain |};
      design_limits := {|
        max_deflection_limit := max_deflection_limit;
        min_safety_factor := safety_factor_min geometry;
        max_strain_limit := strain_limit material |};
      design_checks := design_checks;
      stiffness_coefficients := ks |} in
    (Normal res,
     {| config := config this; g := g this; results := Some res |}).

(** ** Plot data

    Each plot method returns a Plotly description.  Its [data] member and
    the numbers of its [layout] are modelled; the constant presentation
    members (titles, legend flags, arrow geometry, the annotation texts,
    which format numbers) are left out. *)

(** A trace of type ['scatter']; [scatter_size] is the width of its line
    or the size of its marker. *)
Record ScatterTrace : Type := {
  scatter_x : list Js.num;
  scatter_y : list Js.num;
  scatter_mode : string;
  scatter_name : string;
  scatter_color : string;
  scatter_size : R
}.

(** The bar of the safety-factor chart and the dashed line at the
    required minimum. *)
Record BarChart : Type := {
  bar_x : list string;
  bar_y : list Js.num;
  bar_name : string;
  bar_color : string;
  bar_line_y0 : Js.num;
  bar_line_y1 : Js.num
}.

(** The histogram of strand stresses (in MPa) and the line at the yield
    strength. *)
Record Histogram : Type := {
  hist_x : list Js.num;
  hist_nbinsx : nat;
  hist_name : string;
  hist_color : string;
  hist_line_x0 : Js.num;
  hist_line_x1 : Js.num
}.

Record Plots : Type := {
  plot_force_deflection : list ScatterTrace;
  plot_safety_factor : option BarChart;
  plot_stress_distribution : option Histogram;
  plot_deflection_time : option ScatterTrace
}.

(** [Array.from({length: len}, (_, i) => f(i))]: [len] is truncated to an
    integer and clamped at 0; the array constructor throws a RangeError
    from length 2^32. *)
Definition Array_from {A : Type} (len : R) (f : nat -> A)
  : completion (list A) :=
  if (Int_part len <? 2 ^ 32)%Z
  then Normal (map f (seq 0 (Z.to_nat (Int_part len))))
  else Throw "Invalid array length".

(** [k1 * delta + k2 * delta**2 + k3 * delta**3]. *)
Definition force_at (ks : Stiffness) (delta : Js.num) : Js.num :=
  (k1 ks * delta + k2 ks * delta ** 2 + k3 ks * delta ** 3)%js.

(** The [data] of the force-deflection plot: the curve, and the marker of
    the maximum deflection when results are stored. *)
Definition _createForceDeflectionPlot (this : SafetyNetAnalyzer)
  : list ScatterTrace :=
  let geometry := geometry (config this) in
  let ks := _calculateStiffnessCoefficients this in
  let delta_range :=
    map (fun i : nat => (net_span geometry * 0.3 * INR i / 99)%js)
        (seq 0 100) in
  let force_range := map (force_at ks) delta_range in
  let curve := {|
    scatter_x := delta_range;
    scatter_y := force_range;
    scatter_mode := "lines";
    scatter_name := "Force-Deflection Curve";
    scatter_color := "blue";
    scatter_size := 3 |} in
  match results this with
  | Some r =>
      let delta_max := max_deflection (structural_response r) in
      let force_max := force_at ks delta_max in
      [ curve;
        {| scatter_x := [delta_max];
           scatter_y := [force_max];
           scatter_mode := "markers";
           scatter_name := "Maximum Deflection";
           scatter_color := "red";
           scatter_size := 10 |} ]
  | None => [curve]
  end.

(** [None] is the [null] the method returns before an analysis. *)
Definition _createSafetyFactorChart (this : SafetyNetAnalyzer)
  : option BarChart :=
  match results this with
  | None => None
  | Some r =>
      let safety_factor := safety_factor (structural_response r) in
      let min_safety : Js.num := safety_factor_min (geometry (config this)) in
      Some {|
        bar_x := ["Safety Factor"%string];
        bar_y := [safety_factor];
        bar_name := "Calculated Safety Factor";
        bar_color :=
          if (safety_factor >= min_safety)%js then "green" else "red";
        bar_line_y0 := min_safety;
        bar_line_y1 := min_safety |}
  end.

(** One strand of the stress sample, for the value [u] of
    [Math.random()]. *)
Definition strand_stress (max_stress : Js.num) (yield_strength : R) (u : R)
  : Js.num :=
  let stress := (max_stress * (1 + (u - 0.5) * 0.2))%js in
  Js.min (Js.max stress 0) (yield_strength * 1.2)%js.

(** [random i] is the value of the [i]-th call of [Math.random()] the
    method makes. *)
Definition _createStressDistributionPlot (this : SafetyNetAnalyzer)
    (random : nat -> R) : completion (option Histogram) :=
  match results this with
  | None => Normal None
  | Some r =>
      let max_stress := max_stress (structural_response r) in
      let yield_strength := yield_strength (material (config this)) in
      let num_strands := num_strands (geometry (config this)) in
      match Array_from num_strands
              (fun i => strand_stress max_stress yield_strength (random i))
      with
      | Throw msg => Throw msg
      | Normal stress_distribution =>
          Normal (Some {|
            hist_x := map (fun s => (s / 1e6)%js) stress_distribution;
            hist_nbinsx := 20;
            hist_name := "Stress Distribution";
            hist_color := "orange";
            hist_line_x0 := (yield_strength / 1e6)%js;
            hist_line_x1 := (yield_strength / 1e6)%js |})
      end
  end.

Definition _createDeflectionTimePlot (this : SafetyNetAnalyzer)
  : option ScatterTrace :=
  match results this with
  | None => None
  | Some r =>
      let delta_max := max_deflection (structural_response r) in
      let time_range :=
        map (fun i : nat => (2 * INR i / 99)%js) (seq 0 100) in
      let deflection_response :=
        map (fun t => (delta_max * (1 - Js.exp (-5 * t))
                       * Js.exp (-0.5 * t))%js)
            time_range in
      Some {|
        scatter_x := time_range;
        scatter_y := deflection_response;
        scatter_mode := "lines";
        scatter_name := "Deflection Response";
        scatter_color := "purple";
        scatter_size := 3 |}
  end.

Definition generatePlots (this : SafetyNetAnalyzer) (random : nat -> R)
  : completion Plots :=
  let force_deflection := _createForceDeflectionPlot this in
  let safety_factor := _createSafetyFactorChart this in
  match _createStressDistributionPlot this random with
  | Throw msg => Throw msg
  | Normal stress_distribution =>
      let deflection_time := _createDeflectionTimePlot this in
      Normal {|
        plot_force_deflection := force_deflection;
        plot_safety_factor := safety_factor;
        plot_stress_distribution := stress_distribution;
        plot_deflection_time := deflection_time |}
  end.

(** ** Report data *)

Record ReportData : Type := {
  report_scenario_name : string;
  report_configuration : Config;
  report_results : option Results;
  report_plots : Plots;
  report_timestamp : string
}.

(** [!this.results]: the stored results are an object, the empty one of the
    constructor included, and every object is truthy. *)
Definition results_missing (r : option Results) : bool := false.

(** [s.replace(c, d)] for one-character strings: the first [c] becomes
    [d]. *)
Fixpoint replace_first (c d : Ascii.ascii) (s : string) : string :=
  match s with
  | EmptyString => EmptyString
  | String a s' =>
      if Ascii.eqb a c then String d s' else String a (replace_first c d s')
  end.

(** [iso.slice(0, 19).replace('T', ' ')]. *)
Definition timestamp_of (iso : string) : string :=
  replace_first "T"%char " "%char (substring 0 19 iso).

(** [iso_now] is the value of [new Date().toISOString()]. *)
Definition generateReportData (this : SafetyNetAnalyzer)
    (random : nat -> R) (iso_now : string)
  : completion ReportData * SafetyNetAnalyzer :=
  let step : completion unit * SafetyNetAnalyzer :=
    if results_missing (results this) then
      match analyze this with
      | (Normal _, this') => (Normal tt, this')
      | (Throw msg, this') => (Throw msg, this')
      end
    else (Normal tt, this) in
  match step with
  | (Throw msg, this') => (Throw msg, this')
  | (Normal _, this') =>
      match generatePlots this' random with
      | Throw msg => (Throw msg, this')
      | Normal plots =>
          (Normal {|
             report_scenario_name := scenario_name (config this');
             report_configuration := config this';
             report_results := results this';
             report_plots := plots;
             report_timestamp := timestamp_of iso_now |},
           this')
      end
  end.

(** ** The application's handlers

    The state of the [App] component that the handlers read and set, and
    the texts they [alert].  A handler reads the state of the render it
    belongs to and its updates take effect together afterwards; what it
    writes to the console is left out. *)

Record AppState : Type := {
  currentConfig : option Config;
  analysisResults : option Results;
  plots : option Plots;
  loading : bool;
  activeTab : string
}.

Definition handleRunAnalysis (st : AppState) : AppState * list string :=
  match currentConfig st with
  | None => (st, ["Please configure the analysis first"%string])
  | Some c =>
      let analyzer := new (Some c) in
      match analyze analyzer with
      | (Normal results, _) =>
          ({| currentConfig := currentConfig st;
              analysisResults := Some results;
              plots := plots st;
              loading := false;
              activeTab := "results" |},
           [])
      | (Throw message, _) =>
          ({| currentConfig := currentConfig st;
              analysisResults := analysisResults st;
              plots := plots st;
              loading := false;
              activeTab := activeTab st |},
           [("Analysis failed: " ++ message)%string])
      end
  end.

Definition handleGeneratePlots (st : AppState) (random : nat -> R)
  : AppState * list string :=
  match currentConfig st with
  | None => (st, ["Please configure the analysis first"%string])
  | Some c =>
      let failed :=
        ({| currentConfig := currentConfig st;
            analysisResults := analysisResults st;
            plots := plots st;
            loading := false;
            activeTab := activeTab st |},
         ["Failed to generate plots"%string]) in
      let analyzer := new (Some c) in
      let step : completion unit * SafetyNetAnalyzer :=
        match analysisResults st with
        | None =>
            match analyze analyzer with
            | (Normal _, analyzer') => (Normal tt, analyzer')
            | (Throw msg, analyzer') => (Throw msg, analyzer')
            end
        | Some _ => (Normal tt, analyzer)
        end in
      match step with
      | (Throw _, _) => failed
      | (Normal _, analyzer') =>
          match generatePlots analyzer' random with
          | Throw _ => failed
          | Normal p =>
              ({| currentConfig := currentConfig st;
                  analysisResults := analysisResults st;
                  plots := Some p;
                  loading := false;
                  activeTab := "visualization" |},
               [])
          end
      end
  end.

(** * Vocabulary of the properties *)

(** ** Validation *)

(** All six checked fields are positive. *)
Definition checked_positive (c : Config) : Prop :=
  0 < elastic_modulus (material c) /\
  0 < yield_strength (material c) /\
  0 < net_span (geometry c) /\
  0 < num_strands (geometry c) /\
  0 < mass (impact c) /\
  0 < fall_height (impact c).

(** The six checks of [validateConfig], in the order they are made. *)
Definition checks (c : Config) : list (R * string) :=
  [ (elastic_modulus (material c),
     "Material elastic modulus must be positive"%string);
    (yield_strength (material c),
     "Material yield strength must be positive"%string);
    (net_span (geometry c), "Net span must be positive"%string);
    (num_strands (geometry c), "Number of strands must be positive"%string);
    (mass (impact c), "Impact mass must be positive"%string);
    (fall_height (impact c), "Fall height must be positive"%string) ].

(** The condition [!x || x <= 0] of a check. *)
Definition violated (x : R) : bool := (Js.not x || (x <= 0)%js)%bool.

(** [s] carries [m]: [m] occurs in [s] as a contiguous part. *)
Definition carries (s m : string) : Prop :=
  exists pre post, s = (pre ++ m ++ post)%string.

(** ** The engine on real values

    On a configuration that passes validation every intermediate value
    is a real number.  The definitions below are those real values; the
    lemmas of the next part relate each method to them. *)

(** The deformation angle. *)
Definition thetaR (this : SafetyNetAnalyzer) : R :=
  atan (0.1 * net_span (geometry (config this))
        / (net_span (geometry (config this)) / 2)).

(** The three stiffness coefficients. *)
Definition k1R (this : SafetyNetAnalyzer) : R :=
  num_strands (geometry (config this))
  * elastic_modulus (material (config this))
  * cross_section_area (material (config this))
  / net_span (geometry (config this)) * cos (thetaR this) ^ 2.

Definition k2R (this : SafetyNetAnalyzer) : R :=
  num_strands (geometry (config this))
  * elastic_modulus (material (config this))
  * cross_section_area (material (config this))
  / net_span (geometry (config this)) ^ 2
  * sin (thetaR this) * cos (thetaR this) ^ 2.

Definition k3R (this : SafetyNetAnalyzer) : R :=
  num_strands (geometry (config this))
  * elastic_modulus (material (config this))
  * cross_section_area (material (config this))
  / net_span (geometry (config this)) ^ 3
  * sin (thetaR this) ^ 2 * cos (thetaR this) ^ 2.

(** The energy delivered by the fall, [m g h]. *)
Definition impact_energy (this : SafetyNetAnalyzer) : R :=
  mass (impact (config this)) * g this * fall_height (impact (config this)).

(** The left-hand side of the energy balance, [g(delta)]. *)
Definition energyR (this : SafetyNetAnalyzer) (a b c delta : R) : R :=
  0.5 * a * delta ^ 2 + 1 / 3 * b * delta ^ 3 + 0.25 * c * delta ^ 4
  - impact_energy this.

(** The strain at deflection [delta]. *)
Definition strainR (this : SafetyNetAnalyzer) (delta : R) : R :=
  (sqrt (net_span (geometry (config this)) ^ 2 + delta ^ 2)
   - net_span (geometry (config this)))
  / net_span (geometry (config this)).

(** The loop on real values; [ReturnR] keeps the midpoint before it is
    clamped. *)
Inductive loop_exitR : Type :=
| ReturnR (mid : R)
| FallthroughR (left right : R).

(** [bisection_loop] on real values. *)
Fixpoint bisectR (f : R -> R) (iters : nat) (left right : R) : loop_exitR :=
  match iters with
  | O => FallthroughR left right
  | S iters' =>
      let mid := (left + right) / 2 in
      if Rlt_dec (Rabs (f mid)) tolerance then ReturnR mid
      else if Rlt_dec 0 (f mid) then bisectR f iters' left mid
      else bisectR f iters' mid right
  end.

(** The exit of [bisection_loop] that an exit of [bisectR] stands for. *)
Definition lift_exit (e : loop_exitR) : loop_exit :=
  match e with
  | ReturnR mid => Return (Js.Fin (Rmax 0 mid))
  | FallthroughR l r => Fallthrough (Js.Fin l) (Js.Fin r)
  end.

(** The value of [Math.min(m g h / k1, 0.5 L)] when [m g h] is positive:
    a zero [k1] makes the quotient [+Infinity]. *)
Definition fallbackR (this : SafetyNetAnalyzer) (a : R) : R :=
  if Req_dec_T a 0 then net_span (geometry (config this)) * 0.5
  else Rmin (impact_energy this / a) (net_span (geometry (config this)) * 0.5).

(** [_calculateMaxDeflection] on real coefficients. *)
Definition deflectionR (this : SafetyNetAnalyzer) (a b c : R) : R :=
  match bisectR (energyR this a b c) maxIterations
          0 (net_span (geometry (config this)) * 0.5) with
  | ReturnR mid => Rmax 0 mid
  | FallthroughR _ _ => fallbackR this a
  end.

(** The deflection [analyze] computes on a validated configuration. *)
Definition delta_max_of (this : SafetyNetAnalyzer) : R :=
  deflectionR this (k1R this) (k2R this) (k3R this).

(** ** The trace of the loop *)

(** The test [Math.abs(f_mid) < tolerance] of the loop body. *)
Definition within_tolerance (f : Js.num -> Js.num) (x : Js.num) : bool :=
  (Js.abs (f x) < tolerance)%js.

(** The midpoints the loop of [bisection_loop] evaluates, in order. *)
Fixpoint loop_midpoints (f : Js.num -> Js.num) (iters : nat)
    (left right : Js.num) : list Js.num :=
  match iters with
  | O => []
  | S iters' =>
      let mid := ((left + right) / 2)%js in
      let f_mid := f mid in
      mid ::
      (if (Js.abs f_mid < tolerance)%js then []
       else if (f_mid > 0)%js then loop_midpoints f iters' left mid
       else loop_midpoints f iters' mid right)
  end.

(** [x] is not within tolerance of a root of [f]. *)
Definition off_tolerance (f : R -> R) (x : R) : Prop :=
  ~ Rabs (f x) < tolerance.

(** The midpoints the loop evaluates, in order: those before the first
    one within tolerance, and that one. *)
Fixpoint midpoints (f : R -> R) (iters : nat) (left right : R) : list R :=
  match iters with
  | O => []
  | S iters' =>
      let mid := (left + right) / 2 in
      mid ::
      (if Rlt_dec (Rabs (f mid)) tolerance then []
       else if Rlt_dec 0 (f mid) then midpoints f iters' left mid
       else midpoints f iters' mid right)
  end.

(** ** Outcomes of the solver and of [analyze] *)

(** The two exits of the solver, for the result [r] of [analyze]. *)
Definition solver_exit (this : SafetyNetAnalyzer) (r : Results) : Prop :=
  let ks := stiffness_coefficients r in
  let f := energyEquation this (k1 ks) (k2 ks) (k3 ks) in
  let span := net_span (geometry (config this)) in
  let ms := loop_midpoints f maxIterations 0 (span * 0.5)%js in
  let delta_max := max_deflection (structural_response r) in
  (exists pre mid,
     ms = pre ++ [mid] /\
     (List.length pre < maxIterations)%nat /\
     Forall (fun x => within_tolerance f x = false) pre /\
     within_tolerance f mid = true /\
     delta_max = Js.max 0 mid) \/
  (List.length ms = maxIterations /\
   Forall (fun x => within_tolerance f x = false) ms /\
   delta_max
   = Js.min (mass (impact (config this)) * g this
             * fall_height (impact (config this)) / k1 ks)%js
            (span * 0.5)%js).

(** The energy balance holds within tolerance at the deflection of [r],
    for the coefficients of [r] and [g = 9.81]. *)
Definition energy_balanced (this : SafetyNetAnalyzer) (r : Results) : Prop :=
  exists a b c d,
    stiffness_coefficients r
    = {| k1 := Js.Fin a; k2 := Js.Fin b; k3 := Js.Fin c |} /\
    max_deflection (structural_response r) = Js.Fin d /\
    Rabs (0.5 * a * d ^ 2 + 1 / 3 * b * d ^ 3 + 0.25 * c * d ^ 4
          - mass (impact (config this)) * 9.81
            * fall_height (impact (config this)))
    < 1e-6.

(** The loop ran out of iterations and [r] holds the linear estimate. *)
Definition fell_back (this : SafetyNetAnalyzer) (r : Results) : Prop :=
  let ks := stiffness_coefficients r in
  let span := net_span (geometry (config this)) in
  (exists l' r',
     bisection_loop (energyEquation this (k1 ks) (k2 ks) (k3 ks))
       maxIterations 0 (span * 0.5)%js
     = Fallthrough l' r') /\
  max_deflection (structural_response r)
  = Js.min (mass (impact (config this)) * g this
            * fall_height (impact (config this)) / k1 ks)%js
           (span * 0.5)%js.

(** The solver's loop ends by its [return]: some iteration met the
    tolerance. *)
Definition loop_returns (this : SafetyNetAnalyzer) : Prop :=
  let ks := _calculateStiffnessCoefficients this in
  exists v,
    bisection_loop (energyEquation this (k1 ks) (k2 ks) (k3 ks))
      maxIterations 0 (net_span (geometry (config this)) * 0.5)%js
    = Return v.

(** The part of a result the configuration's solver settings could
    influence: everything but the echoed input. *)
Definition same_outcome (r r' : Results) : Prop :=
  structural_response r = structural_response r' /\
  design_checks r = design_checks r' /\
  design_limits r = design_limits r' /\
  stiffness_coefficients r = stiffness_coefficients r'.

(** ** Configurations *)

(** A configuration with one field replaced. *)
Definition with_cross_section_area (c : Config) (A : R) : Config := {|
  scenario_name := scenario_name c;
  material := {|
    material_name := material_name (material c);
    elastic_modulus := elastic_modulus (material c);
    yield_strength := yield_strength (material c);
    density := density (material c);
    cross_section_area := A;
    strain_limit := strain_limit (material c) |};
  geometry := geometry c;
  impact := impact c;
  analysis := analysis c
|}.

Definition with_net_span (c : Config) (L : R) : Config := {|
  scenario_name := scenario_name c;
  material := material c;
  geometry := {|
    net_span := L;
    num_strands := num_strands (geometry c);
    installation_angle := installation_angle (geometry c);
    safety_factor_min := safety_factor_min (geometry c);
    max_deflection_ratio := max_deflection_ratio (geometry c) |};
  impact := impact c;
  analysis := analysis c
|}.

Definition with_mass (c : Config) (m : R) : Config := {|
  scenario_name := scenario_name c;
  material := material c;
  geometry := geometry c;
  impact := {|
    mass := m;
    fall_height := fall_height (impact c);
    impact_velocity := impact_velocity (impact c) |};
  analysis := analysis c
|}.

Definition with_fall_height (c : Config) (h : R) : Config := {|
  scenario_name := scenario_name c;
  material := material c;
  geometry := geometry c;
  impact := {|
    mass := mass (impact c);
    fall_height := h;
    impact_velocity := impact_velocity (impact c) |};
  analysis := analysis c
|}.

(** What the four design checks [dc] say about the deflection [d] and the
    strain [s] of a configuration [c]. *)
Definition checks_mean (c : Config) (dc : DesignChecks) (d s : R) : Prop :=
  let ok_d :=
    d <= max_deflection_ratio (geometry c) * net_span (geometry c) in
  let ok_s := s <= strain_limit (material c) in
  let ok_sigma :=
    safety_factor_min (geometry c) * (elastic_modulus (material c) * s)
    <= yield_strength (material c)
    \/ elastic_modulus (material c) * s = 0 in
  (deflection_ok dc = true <-> ok_d) /\
  (strain_ok dc = true <-> ok_s) /\
  (stress_ok dc = true <-> ok_sigma) /\
  (overall_safe dc = true <-> ok_d /\ ok_sigma /\ ok_s).

(** [c] and [c'] agree on every field a method of the analysis reads: all
    but the scenario and material names, the density, the installation
    angle, the impact velocity and the [analysis] section. *)
Definition same_inputs (c c' : Config) : Prop :=
  elastic_modulus (material c) = elastic_modulus (material c') /\
  yield_strength (material c) = yield_strength (material c') /\
  cross_section_area (material c) = cross_section_area (material c') /\
  strain_limit (material c) = strain_limit (material c') /\
  net_span (geometry c) = net_span (geometry c') /\
  num_strands (geometry c) = num_strands (geometry c') /\
  safety_factor_min (geometry c) = safety_factor_min (geometry c') /\
  max_deflection_ratio (geometry c) = max_deflection_ratio (geometry c') /\
  mass (impact c) = mass (impact c') /\
  fall_height (impact c) = fall_height (impact c').

(** The default configuration with another density, installation angle
    and impact velocity, damping on, and other names. *)
Definition unread_fields_changed : Config := {|
  scenario_name := "Other";
  material := {|
    material_name := "Other material";
    elastic_modulus := 3.5e9;
    yield_strength := 8.0e7;
    density := 900;
    cross_section_area := 2.0e-6;
    strain_limit := 0.1 |};
  geometry := {|
    net_span := 4.0;
    num_strands := 50;
    installation_angle := 0.5;
    safety_factor_min := 2.0;
    max_deflection_ratio := 0.15 |};
  impact := {|
    mass := 100.0;
    fall_height := 3.0;
    impact_velocity := 1 |};
  analysis := {|
    analysis_type := "static";
    max_iterations := 7;
    convergence_tolerance := 1;
    include_damping := true;
    damping_ratio := 0.5 |}
|}.

(** [c] occurs in [s]. *)
Fixpoint has_char (c : Ascii.ascii) (s : string) : bool :=
  match s with
  | EmptyString => false
  | String a s' => (Ascii.eqb a c || has_char c s')%bool
  end.

Definition with_max_deflection_ratio (c : Config) (ratio : R) : Config := {|
  scenario_name := scenario_name c;
  material := material c;
  geometry := {|
    net_span := net_span (geometry c);
    num_strands := num_strands (geometry c);
    installation_angle := installation_angle (geometry c);
    safety_factor_min := safety_factor_min (geometry c);
    max_deflection_ratio := ratio |};
  impact := impact c;
  analysis := analysis c
|}.

(** [c] with other values in [analysis.max_iterations] and
    [analysis.convergence_tolerance]. *)
Definition with_solver_settings (c : Config) (iters tol : R) : Config := {|
  scenario_name := scenario_name c;
  material := material c;
  geometry := geometry c;
  impact := impact c;
  analysis := {|
    analysis_type := analysis_type (analysis c);
    max_iterations := iters;
    convergence_tolerance := tol;
    include_damping := include_damping (analysis c);
    damping_ratio := damping_ratio (analysis c) |}
|}.

(** The default configuration with a negative cross-section area. *)
Definition negative_area_config : Config :=
  with_cross_section_area getDefaultConfig (-2.0e-6).

(** The default configuration on a net of span 1 m, for a fall of [h] m. *)
Definition short_net_config (h : R) : Config :=
  with_fall_height (with_net_span getDefaultConfig 1) h.

(** The default configuration with [mass = 0] and [net_span = -1]. *)
Definition rejected_config : Config :=
  with_mass (with_net_span getDefaultConfig (-1)) 0.

(** The analyzer constructed on the short net. *)
Definition short_net (h : R) : SafetyNetAnalyzer :=
  new (Some (short_net_config h)).

(** The energy balance the solver bisects on the short net. *)
Definition short_net_balance (h : R) : R -> R :=
  energyR (short_net h)
    (k1R (short_net h)) (k2R (short_net h)) (k3R (short_net h)).

(** * Lemmas *)

(** ** Arithmetic on real values *)

Section JsFacts.

Implicit Types x y : R.

Lemma add_Fin x y : (Js.Fin x + Js.Fin y)%js = Js.Fin (x + y).
Proof. reflexivity. Qed.

Lemma sub_Fin x y : (Js.Fin x - Js.Fin y)%js = Js.Fin (x - y).
Proof. reflexivity. Qed.

Lemma mul_Fin x y : (Js.Fin x * Js.Fin y)%js = Js.Fin (x * y).
Proof. reflexivity. Qed.

Lemma div_Fin x y : y <> 0 -> (Js.Fin x / Js.Fin y)%js = Js.Fin (x / y).
Proof.
  intros Hy. unfold Js.div. destruct (Req_dec_T y 0); [contradiction|reflexivity].
Qed.

Lemma div_Fin_zero x : 0 < x -> (Js.Fin x / Js.Fin 0)%js = Js.PInf.
Proof.
  intros Hx. unfold Js.div, Js.signed.
  destruct (Req_dec_T 0 0) as [_|H]; [|now elim H].
  destruct (Rlt_dec 0 x); [reflexivity|contradiction].
Qed.

Lemma pow_Fin x n : (Js.Fin x ** n)%js = Js.Fin (x ^ n).
Proof. destruct n; reflexivity. Qed.

Lemma sqrt_Fin x : 0 <= x -> Js.sqrt (Js.Fin x) = Js.Fin (sqrt x).
Proof.
  intros Hx. unfold Js.sqrt. destruct (Rlt_dec x 0); [lra|reflexivity].
Qed.

Lemma lt_Fin x y : (Js.Fin x < Js.Fin y)%js = true <-> x < y.
Proof.
  unfold Js.lt. destruct (Rlt_dec x y); split; intros; auto; discriminate.
Qed.

Lemma lt_Fin_false x y : (Js.Fin x < Js.Fin y)%js = false <-> y <= x.
Proof.
  unfold Js.lt. destruct (Rlt_dec x y); split; intros; auto;
    try discriminate; lra.
Qed.

Lemma gt_Fin x y : (Js.Fin x > Js.Fin y)%js = true <-> y < x.
Proof. apply lt_Fin. Qed.

Lemma gt_Fin_false x y : (Js.Fin x > Js.Fin y)%js = false <-> x <= y.
Proof. apply lt_Fin_false. Qed.

Lemma le_Fin x y : (Js.Fin x <= Js.Fin y)%js = true <-> x <= y.
Proof.
  unfold Js.le. destruct (Rle_dec x y); split; intros; auto; discriminate.
Qed.

Lemma le_Fin_false x y : (Js.Fin x <= Js.Fin y)%js = false <-> y < x.
Proof.
  unfold Js.le. destruct (Rle_dec x y); split; intros; auto;
    try discriminate; lra.
Qed.

Lemma not_Fin x : Js.not (Js.Fin x) = true <-> x = 0.
Proof.
  unfold Js.not. destruct (Req_dec_T x 0); split; intros; auto; discriminate.
Qed.

Lemma max_Fin x y : Js.max (Js.Fin x) (Js.Fin y) = Js.Fin (Rmax x y).
Proof.
  unfold Js.max, Js.lt, Rmax.
  destruct (Rlt_dec x y), (Rle_dec x y);
    reflexivity || (f_equal; lra) || lra.
Qed.

Lemma min_Fin x y : Js.min (Js.Fin x) (Js.Fin y) = Js.Fin (Rmin x y).
Proof.
  unfold Js.min, Js.lt, Rmin.
  destruct (Rlt_dec y x), (Rle_dec x y);
    reflexivity || (f_equal; lra) || lra.
Qed.

Lemma min_PInf_Fin y : Js.min Js.PInf (Js.Fin y) = Js.Fin y.
Proof. reflexivity. Qed.

End JsFacts.

(** ** The loop and the energy balance on real values *)

Lemma two_neq_0 : 2 <> 0.
Proof. lra. Qed.

Lemma bisection_loop_Fin (f : Js.num -> Js.num) (fR : R -> R) :
  (forall x, f (Js.Fin x) = Js.Fin (fR x)) ->
  forall n l r,
    bisection_loop f n (Js.Fin l) (Js.Fin r) = lift_exit (bisectR fR n l r).
Proof.
  intros Hf. induction n as [|n IH]; intros l r; cbn [bisection_loop bisectR].
  - reflexivity.
  - rewrite add_Fin, (div_Fin _ 2 two_neq_0), Hf.
    cbn [Js.abs Js.gt Js.lt].
    destruct (Rlt_dec (Rabs (fR ((l + r) / 2))) tolerance).
    + cbn [lift_exit]. now rewrite max_Fin.
    + destruct (Rlt_dec 0 (fR ((l + r) / 2))); apply IH.
Qed.

Lemma energyEquation_Fin this (a b c delta : R) :
  energyEquation this (Js.Fin a) (Js.Fin b) (Js.Fin c) (Js.Fin delta)
  = Js.Fin (energyR this a b c delta).
Proof.
  unfold energyEquation, energyR, impact_energy.
  rewrite !pow_Fin, (div_Fin 1 3) by lra. reflexivity.
Qed.

(** ** Validation passes exactly on positive checked fields *)

Lemma violated_true x : violated x = true <-> x <= 0.
Proof.
  unfold violated, Js.not, Js.le.
  destruct (Req_dec_T x 0), (Rle_dec x 0); cbn [orb];
    split; intros; try lra; try reflexivity; discriminate.
Qed.

Lemma violated_false x : violated x = false <-> 0 < x.
Proof.
  destruct (violated x) eqn:E.
  - apply violated_true in E. split; [discriminate|lra].
  - split; [intros _|reflexivity].
    destruct (Rlt_dec 0 x) as [|H]; [assumption|].
    assert (x <= 0) as H' by lra. apply violated_true in H'. congruence.
Qed.

Lemma check_positive_app x msg errors :
  check_positive x msg errors
  = errors ++ (if violated x then [msg] else []).
Proof.
  unfold check_positive. fold (violated x).
  destruct (violated x); [reflexivity|now rewrite app_nil_r].
Qed.

Lemma validateConfig_checks this :
  validateConfig this
  = flat_map (fun p => if violated (fst p) then [snd p] else [])
      (checks (config this)).
Proof.
  unfold validateConfig. rewrite !check_positive_app.
  cbn [flat_map checks fst snd app]. rewrite app_nil_r, <- !app_assoc.
  reflexivity.
Qed.

Lemma validateConfig_In this msg :
  In msg (validateConfig this) <->
  exists x, In (x, msg) (checks (config this)) /\ x <= 0.
Proof.
  rewrite validateConfig_checks, in_flat_map. split.
  - intros ([x m] & Hin & Hm). cbn [fst snd] in Hm.
    destruct (violated x) eqn:E; [|contradiction].
    destruct Hm as [<-|[]]. exists x. split; [assumption|].
    now apply violated_true.
  - intros (x & Hin & Hx). exists (x, msg). split; [assumption|].
    cbn [fst snd]. apply violated_true in Hx. rewrite Hx. now left.
Qed.

Lemma validateConfig_nil this :
  validateConfig this = [] <-> checked_positive (config this).
Proof.
  split.
  - intros HE.
    assert (forall x msg, In (x, msg) (checks (config this)) -> 0 < x) as H.
    { intros x msg Hin. destruct (Rlt_dec 0 x) as [|Hn]; [assumption|].
      assert (In msg (validateConfig this)) as Hm.
      { apply validateConfig_In. exists x. split; [assumption|lra]. }
      rewrite HE in Hm. contradiction. }
    unfold checked_positive.
    repeat split; eapply H; cbn [checks In]; eauto 10.
  - intros (H1 & H2 & H3 & H4 & H5 & H6).
    rewrite validateConfig_checks. cbn [flat_map checks fst snd].
    apply violated_false in H1, H2, H3, H4, H5, H6.
    now rewrite H1, H2, H3, H4, H5, H6.
Qed.

(** ** The methods on a validated configuration *)

(** Push [Js.Fin] outwards through the arithmetic of a goal. *)
Ltac js_fin :=
  repeat first
    [ rewrite add_Fin | rewrite sub_Fin | rewrite mul_Fin | rewrite pow_Fin
    | rewrite div_Fin by (assumption || lra) ].

Lemma stiffness_Fin this :
  net_span (geometry (config this)) <> 0 ->
  _calculateStiffnessCoefficients this
  = {| k1 := Js.Fin (k1R this);
       k2 := Js.Fin (k2R this);
       k3 := Js.Fin (k3R this) |}.
Proof.
  intros HL. unfold _calculateStiffnessCoefficients, k1R, k2R, k3R, thetaR.
  set (L := net_span (geometry (config this))) in *.
  assert (L / 2 <> 0) as HL2 by lra.
  assert (L ^ 2 <> 0) as HLs by (apply pow_nonzero; assumption).
  assert (L ^ 3 <> 0) as HLc by (apply pow_nonzero; assumption).
  js_fin. cbn [Js.atan Js.cos Js.sin]. js_fin. reflexivity.
Qed.

Lemma deflection_Fin this (a b c : R) :
  0 < impact_energy this ->
  _calculateMaxDeflection this (Js.Fin a) (Js.Fin b) (Js.Fin c)
  = Js.Fin (deflectionR this a b c).
Proof.
  intros He. unfold _calculateMaxDeflection, deflectionR.
  rewrite !mul_Fin.
  rewrite (bisection_loop_Fin _ (energyR this a b c))
    by (intros; apply energyEquation_Fin).
  destruct (bisectR _ _ _ _) as [mid|l r]; cbn [lift_exit]; [reflexivity|].
  unfold fallbackR. fold (impact_energy this).
  destruct (Req_dec_T a 0) as [->|Ha].
  - now rewrite div_Fin_zero.
  - now rewrite div_Fin, min_Fin.
Qed.

Lemma strain_arg_nonneg (L delta : R) : 0 <= L ^ 2 + delta ^ 2.
Proof. nra. Qed.

Lemma strain_Fin this (delta : R) :
  net_span (geometry (config this)) <> 0 ->
  ((Js.sqrt (net_span (geometry (config this)) ** 2 + Js.Fin delta ** 2)
    - net_span (geometry (config this)))
   / net_span (geometry (config this)))%js
  = Js.Fin (strainR this delta).
Proof.
  intros HL. unfold strainR.
  rewrite !pow_Fin, add_Fin, sqrt_Fin by apply strain_arg_nonneg.
  now rewrite sub_Fin, div_Fin.
Qed.

Lemma stress_Fin this (delta : R) :
  net_span (geometry (config this)) <> 0 ->
  _calculateMaxStress this (Js.Fin delta)
  = Js.Fin (elastic_modulus (material (config this)) * strainR this delta).
Proof.
  intros HL. unfold _calculateMaxStress. now rewrite strain_Fin.
Qed.

Lemma strainR_nonneg this (delta : R) :
  0 < net_span (geometry (config this)) -> 0 <= strainR this delta.
Proof.
  intros HL. unfold strainR.
  set (L := net_span (geometry (config this))) in *.
  assert (L <= sqrt (L ^ 2 + delta ^ 2)) as H.
  { rewrite <- (sqrt_pow2 L) at 1 by lra.
    apply sqrt_le_1_alt. nra. }
  apply Rmult_le_pos; [lra|]. left. now apply Rinv_0_lt_compat.
Qed.

Lemma impact_energy_pos this :
  0 < g this -> checked_positive (config this) -> 0 < impact_energy this.
Proof.
  intros Hg (_ & _ & _ & _ & Hm & Hh). unfold impact_energy.
  apply Rmult_lt_0_compat; [apply Rmult_lt_0_compat|]; assumption.
Qed.

(** What [analyze] returns on a validated configuration, field by field. *)
Lemma analyze_valid this :
  0 < g this ->
  validateConfig this = [] ->
  exists r,
    analyze this
    = (Normal r,
       {| config := config this; g := g this; results := Some r |}) /\
    input_parameters r = config this /\
    stiffness_coefficients r
    = {| k1 := Js.Fin (k1R this); k2 := Js.Fin (k2R this);
         k3 := Js.Fin (k3R this) |} /\
    max_deflection (structural_response r) = Js.Fin (delta_max_of this) /\
    strain (structural_response r)
    = Js.Fin (strainR this (delta_max_of this)) /\
    max_stress (structural_response r)
    = Js.Fin (elastic_modulus (material (config this))
              * strainR this (delta_max_of this)) /\
    safety_factor (structural_response r)
    = (if Rlt_dec 0 (elastic_modulus (material (config this))
                     * strainR this (delta_max_of this))
       then Js.Fin (yield_strength (material (config this))
                    / (elastic_modulus (material (config this))
                       * strainR this (delta_max_of this)))
       else Js.PInf).
Proof.
  intros Hg HV. pose proof HV as Hpos. apply validateConfig_nil in Hpos.
  pose proof (impact_energy_pos this Hg Hpos) as He.
  destruct Hpos as (HE & HY & HL & HN & HM & HH).
  assert (net_span (geometry (config this)) <> 0) as HL0 by lra.
  unfold delta_max_of, analyze. rewrite HV. cbn [List.length Nat.ltb Nat.leb].
  rewrite (stiffness_Fin this HL0). cbn [k1 k2 k3].
  rewrite (deflection_Fin this _ _ _ He).
  rewrite (stress_Fin this _ HL0), (strain_Fin this _ HL0).
  eexists. split; [reflexivity|].
  cbn [input_parameters stiffness_coefficients structural_response
       max_deflection strain max_stress safety_factor].
  repeat split.
  unfold Js.gt, Js.lt.
  destruct (Rlt_dec 0 _) as [Hs|Hs]; [|reflexivity].
  rewrite div_Fin by lra. reflexivity.
Qed.

(** ** The bisection loop *)

Section Bisection.

Variable f : R -> R.

(** The bracket only shrinks, and a returned midpoint lies inside it. *)
Lemma bisectR_bracket n : forall l r,
  l <= r ->
  match bisectR f n l r with
  | ReturnR mid => l <= mid <= r
  | FallthroughR l' r' => l <= l' /\ l' <= r' /\ r' <= r
  end.
Proof.
  induction n as [|n IH]; intros l r Hlr; cbn [bisectR].
  - lra.
  - destruct (Rlt_dec (Rabs (f ((l + r) / 2))) tolerance); [lra|].
    destruct (Rlt_dec 0 (f ((l + r) / 2))).
    + specialize (IH l ((l + r) / 2)).
      destruct (bisectR f n l ((l + r) / 2)); lra.
    + specialize (IH ((l + r) / 2) r).
      destruct (bisectR f n ((l + r) / 2) r); lra.
Qed.

(** The loop returns only at a midpoint within tolerance. *)
Lemma bisectR_return_tol n : forall l r mid,
  bisectR f n l r = ReturnR mid -> Rabs (f mid) < tolerance.
Proof.
  induction n as [|n IH]; intros l r mid; cbn [bisectR].
  - discriminate.
  - destruct (Rlt_dec (Rabs (f ((l + r) / 2))) tolerance) as [Ht|Ht].
    + intros [= <-]. exact Ht.
    + destruct (Rlt_dec 0 (f ((l + r) / 2))); apply IH.
Qed.

(** The loop returns at the first midpoint within tolerance. *)
Lemma bisectR_return_midpoints n : forall l r mid,
  bisectR f n l r = ReturnR mid ->
  exists pre,
    midpoints f n l r = pre ++ [mid] /\
    Forall (off_tolerance f) pre /\
    (List.length pre < n)%nat.
Proof.
  induction n as [|n IH]; intros l r mid; cbn [bisectR midpoints].
  - discriminate.
  - destruct (Rlt_dec (Rabs (f ((l + r) / 2))) tolerance) as [Ht|Ht].
    + intros [= <-]. exists []. cbn. repeat split; [constructor|lia].
    + destruct (Rlt_dec 0 (f ((l + r) / 2))); intros H;
        destruct (IH _ _ _ H) as (pre & -> & Hpre & Hlen);
        exists ((l + r) / 2 :: pre); cbn [app List.length];
        (repeat split; [constructor; assumption|lia]).
Qed.

(** The loop falls through only after all its iterations, none of them
    at a midpoint within tolerance. *)
Lemma bisectR_fallthrough_midpoints n : forall l r l' r',
  bisectR f n l r = FallthroughR l' r' ->
  List.length (midpoints f n l r) = n /\
  Forall (off_tolerance f) (midpoints f n l r).
Proof.
  induction n as [|n IH]; intros l r l' r'; cbn [bisectR midpoints].
  - intros _. split; [reflexivity|constructor].
  - destruct (Rlt_dec (Rabs (f ((l + r) / 2))) tolerance) as [Ht|Ht].
    + discriminate.
    + destruct (Rlt_dec 0 (f ((l + r) / 2))); intros H;
        destruct (IH _ _ _ _ H) as (Hlen & Hall); cbn [List.length];
        (split; [now rewrite Hlen|constructor; assumption]).
Qed.

(** Every midpoint lies in the initial bracket, strictly above its left
    end when the bracket is not a point. *)
Lemma midpoints_bracket n : forall l r,
  l < r -> Forall (fun x => l < x < r) (midpoints f n l r).
Proof.
  induction n as [|n IH]; intros l r Hlr; cbn [midpoints].
  - constructor.
  - constructor; [lra|].
    destruct (Rlt_dec (Rabs (f ((l + r) / 2))) tolerance); [constructor|].
    destruct (Rlt_dec 0 (f ((l + r) / 2))).
    + eapply Forall_impl; [|apply (IH l ((l + r) / 2)); lra].
      cbn beta. intros; lra.
    + eapply Forall_impl; [|apply (IH ((l + r) / 2) r); lra].
      cbn beta. intros; lra.
Qed.

(** Where the function stays at or below [-tolerance] on the bracket, the
    loop never returns: it moves the left end only. *)
Lemma bisectR_never_converges n : forall l r,
  l <= r ->
  (forall x, l <= x <= r -> f x <= - tolerance) ->
  exists l', bisectR f n l r = FallthroughR l' r.
Proof.
  assert (0 < tolerance) as Htol by (unfold tolerance; lra).
  induction n as [|n IH]; intros l r Hlr Hf; cbn [bisectR].
  - now exists l.
  - assert (f ((l + r) / 2) <= - tolerance) as Hm by (apply Hf; lra).
    destruct (Rlt_dec (Rabs (f ((l + r) / 2))) tolerance) as [Ht|Ht].
    { rewrite Rabs_left in Ht by lra. lra. }
    destruct (Rlt_dec 0 (f ((l + r) / 2))); [lra|].
    apply IH; [lra|]. intros x Hx. apply Hf. lra.
Qed.

(** A returned midpoint lies beyond any initial segment of the bracket
    on which the function stays at or below [-tolerance]. *)
Lemma bisectR_return_beyond n l r c mid :
  l <= r ->
  (forall x, l <= x <= c -> f x <= - tolerance) ->
  bisectR f n l r = ReturnR mid -> c < mid.
Proof.
  intros Hlr Hf H.
  pose proof (bisectR_bracket n l r Hlr) as Hb. rewrite H in Hb.
  apply bisectR_return_tol in H.
  destruct (Rlt_dec c mid) as [|Hc]; [assumption|exfalso].
  assert (f mid <= - tolerance) as Hm by (apply Hf; lra).
  assert (0 < tolerance) as Htol by (unfold tolerance; lra).
  rewrite Rabs_left in H by lra. lra.
Qed.

(** Convergence in exact arithmetic: with a sign change beyond the
    tolerance across the bracket and slope at most [K], the loop returns
    before the bracket gets narrower than [2 tolerance / K]. *)
Lemma bisectR_converges (K : R) n : forall l r,
  l <= r ->
  (forall x y, l <= x -> x <= y -> y <= r -> f y - f x <= K * (y - x)) ->
  f l <= - tolerance ->
  tolerance <= f r ->
  K * (r - l) < 2 * tolerance * 2 ^ n ->
  exists mid, bisectR f n l r = ReturnR mid.
Proof.
  induction n as [|n IH]; intros l r Hlr HK Hl Hr Hw; cbn [bisectR].
  - exfalso. specialize (HK l r). cbn [pow] in Hw. lra.
  - destruct (Rlt_dec (Rabs (f ((l + r) / 2))) tolerance) as [Ht|Ht];
      [eexists; reflexivity|].
    assert (tolerance <= Rabs (f ((l + r) / 2))) as Ha by lra.
    cbn [pow] in Hw.
    destruct (Rlt_dec 0 (f ((l + r) / 2))) as [Hp|Hp].
    + rewrite Rabs_right in Ha by lra.
      apply IH; try lra.
      intros x y Hx Hxy Hy. apply HK; lra.
    + rewrite Rabs_left1 in Ha by lra.
      apply IH; try lra.
      intros x y Hx Hxy Hy. apply HK; lra.
Qed.

End Bisection.

(** Two runs of the loop on the same bracket, the second on a function
    that is nowhere above the first: when both return, the second
    returns at a midpoint that is not smaller. *)
Lemma bisectR_monotone (f1 f2 : R -> R) :
  (forall x, f2 x <= f1 x) ->
  forall n l r m1 m2,
    l <= r ->
    bisectR f1 n l r = ReturnR m1 ->
    bisectR f2 n l r = ReturnR m2 ->
    m1 <= m2.
Proof.
  intros Hf. assert (0 < tolerance) as Htol by (unfold tolerance; lra).
  induction n as [|n IH]; intros l r m1 m2 Hlr; cbn [bisectR].
  - discriminate.
  - set (mid := (l + r) / 2). pose proof (Hf mid) as Hmid.
    assert (l <= mid <= r) as Hb by (unfold mid; lra).
    destruct (Rlt_dec (Rabs (f1 mid)) tolerance) as [H1|H1];
    destruct (Rlt_dec (Rabs (f2 mid)) tolerance) as [H2|H2].
    + intros [= <-] [= <-]. lra.
    + intros [= <-].
      destruct (Rlt_dec 0 (f2 mid)) as [Hp|Hp].
      { exfalso. apply H2. rewrite Rabs_right by lra.
        apply Rabs_def2 in H1. lra. }
      intros H. pose proof (bisectR_bracket f2 n mid r (proj2 Hb)) as Hr.
      rewrite H in Hr. lra.
    + destruct (Rlt_dec 0 (f1 mid)) as [Hp|Hp].
      * intros H [= <-].
        pose proof (bisectR_bracket f1 n l mid (proj1 Hb)) as Hr.
        rewrite H in Hr. lra.
      * exfalso. apply H1. rewrite Rabs_left1 by lra.
        apply Rabs_def2 in H2. lra.
    + destruct (Rlt_dec 0 (f1 mid)) as [Hp1|Hp1];
      destruct (Rlt_dec 0 (f2 mid)) as [Hp2|Hp2].
      * apply IH; lra.
      * intros Ha Hc.
        pose proof (bisectR_bracket f1 n l mid (proj1 Hb)) as Hr1.
        pose proof (bisectR_bracket f2 n mid r (proj2 Hb)) as Hr2.
        rewrite Ha in Hr1. rewrite Hc in Hr2. lra.
      * lra.
      * apply IH; lra.
Qed.

(** ** The deformation angle *)

Lemma cos_atan_pos x : 0 < cos (atan x).
Proof.
  destruct (atan_bound x) as [Hlo Hhi]. apply cos_gt_0; lra.
Qed.

Lemma sin_atan x : sin (atan x) = x * cos (atan x).
Proof.
  pose proof (cos_atan_pos x) as Hc.
  rewrite <- (tan_atan x) at 2. unfold tan. field. lra.
Qed.

Lemma cos_atan_sq x : cos (atan x) ^ 2 = 1 / (1 + x ^ 2).
Proof.
  pose proof (sin2_cos2 (atan x)) as H. unfold Rsqr in H.
  rewrite sin_atan in H.
  assert (0 < 1 + x ^ 2) as Hx by nra.
  apply (Rmult_eq_reg_r (1 + x ^ 2)); [|lra].
  replace (1 / (1 + x ^ 2) * (1 + x ^ 2)) with 1 by (field; lra).
  lra.
Qed.

Lemma sin_atan_nonneg x : 0 <= x -> 0 <= sin (atan x).
Proof.
  intros Hx. rewrite sin_atan.
  apply Rmult_le_pos; [assumption|]. left. apply cos_atan_pos.
Qed.

Section Angle.

Variable this : SafetyNetAnalyzer.
Hypothesis span_nonzero : net_span (geometry (config this)) <> 0.

(** The assumed deflection is a tenth of the span, so the angle does not
    depend on the span: [theta = atan 0.2]. *)
Lemma thetaR_const : thetaR this = atan 0.2.
Proof.
  unfold thetaR. f_equal.
  assert (forall k L, L <> 0 -> k * L / (L / 2) = k * 2) as H
    by (intros; field; assumption).
  rewrite H by assumption. lra.
Qed.

Lemma cos_theta_sq : cos (thetaR this) ^ 2 = 25 / 26.
Proof. rewrite thetaR_const, cos_atan_sq. lra. Qed.

Lemma sin_theta_bounds : 0 <= sin (thetaR this) <= 1.
Proof.
  rewrite thetaR_const. split.
  - apply sin_atan_nonneg. lra.
  - apply SIN_bound.
Qed.

Lemma sin_theta_sq_bounds : 0 <= sin (thetaR this) ^ 2 <= 1.
Proof. pose proof sin_theta_bounds. nra. Qed.

End Angle.

(** ** The stored energy *)

Section Energy.

Variable this : SafetyNetAnalyzer.
Variables a b c : R.

Lemma energyR_nonpos_coeffs x :
  a <= 0 -> b <= 0 -> c <= 0 -> 0 <= x ->
  energyR this a b c x <= - impact_energy this.
Proof.
  intros Ha Hb Hc Hx. unfold energyR.
  assert (0 <= x ^ 2) by nra.
  assert (0 <= x ^ 3) by (apply pow_le; assumption).
  assert (0 <= x ^ 4) by (apply pow_le; assumption).
  nra.
Qed.

Hypothesis a_nonneg : 0 <= a.
Hypothesis b_nonneg : 0 <= b.
Hypothesis c_nonneg : 0 <= c.

Lemma pow_diffs x y :
  y ^ 2 - x ^ 2 = (y - x) * (y + x) /\
  y ^ 3 - x ^ 3 = (y - x) * (y ^ 2 + x * y + x ^ 2) /\
  y ^ 4 - x ^ 4 = (y - x) * ((y + x) * (y ^ 2 + x ^ 2)).
Proof. repeat split; ring. Qed.

(** The energy balance is non-decreasing in the deflection. *)
Lemma energyR_increasing x y :
  0 <= x -> x <= y -> energyR this a b c x <= energyR this a b c y.
Proof.
  intros Hx Hxy. unfold energyR.
  destruct (pow_diffs x y) as (H2 & H3 & H4).
  assert (0 <= y ^ 2 - x ^ 2) by (rewrite H2; nra).
  assert (0 <= y ^ 3 - x ^ 3) by (rewrite H3; nra).
  assert (0 <= y ^ 4 - x ^ 4).
  { rewrite H4. apply Rmult_le_pos; [lra|]. apply Rmult_le_pos; nra. }
  nra.
Qed.

(** Its slope on [[0, r]] is at most the force at [r]. *)
Lemma energyR_slope r x y :
  0 <= x -> x <= y -> y <= r ->
  energyR this a b c y - energyR this a b c x
  <= (a * r + b * r ^ 2 + c * r ^ 3) * (y - x).
Proof.
  intros Hx Hxy Hy. unfold energyR.
  destruct (pow_diffs x y) as (H2 & H3 & H4).
  assert (y ^ 2 - x ^ 2 <= (y - x) * (2 * r)) as B2.
  { rewrite H2. apply Rmult_le_compat_l; lra. }
  assert (y ^ 3 - x ^ 3 <= (y - x) * (3 * r ^ 2)) as B3.
  { rewrite H3. apply Rmult_le_compat_l; [lra|]. nra. }
  assert (y ^ 4 - x ^ 4 <= (y - x) * (4 * r ^ 3)) as B4.
  { rewrite H4. apply Rmult_le_compat_l; [lra|].
    replace (4 * r ^ 3) with ((2 * r) * (2 * r ^ 2)) by ring.
    apply Rmult_le_compat; nra. }
  assert (a * (y ^ 2 - x ^ 2) <= a * ((y - x) * (2 * r)))
    by (apply Rmult_le_compat_l; assumption).
  assert (b * (y ^ 3 - x ^ 3) <= b * ((y - x) * (3 * r ^ 2)))
    by (apply Rmult_le_compat_l; assumption).
  assert (c * (y ^ 4 - x ^ 4) <= c * ((y - x) * (4 * r ^ 3)))
    by (apply Rmult_le_compat_l; assumption).
  lra.
Qed.

End Energy.

(** ** Signs of the stiffness coefficients *)

Section StiffnessSigns.

Variable this : SafetyNetAnalyzer.
Hypothesis valid : checked_positive (config this).

Let L := net_span (geometry (config this)).
Let nEA := num_strands (geometry (config this))
           * elastic_modulus (material (config this))
           * cross_section_area (material (config this)).

Lemma span_pos : 0 < L.
Proof. destruct valid as (_ & _ & H & _). exact H. Qed.

Lemma span_neq_0 : net_span (geometry (config this)) <> 0.
Proof. pose proof span_pos. unfold L in *. lra. Qed.

Lemma k1R_value : k1R this = nEA / L * (25 / 26).
Proof. unfold k1R. now rewrite (cos_theta_sq this span_neq_0). Qed.

Lemma k2R_value : k2R this = nEA / L ^ 2 * sin (thetaR this) * (25 / 26).
Proof. unfold k2R. now rewrite (cos_theta_sq this span_neq_0). Qed.

Lemma k3R_value :
  k3R this = nEA / L ^ 3 * sin (thetaR this) ^ 2 * (25 / 26).
Proof. unfold k3R. now rewrite (cos_theta_sq this span_neq_0). Qed.

Lemma nE_pos :
  0 < num_strands (geometry (config this))
      * elastic_modulus (material (config this)).
Proof.
  destruct valid as (HE & _ & _ & HN & _). now apply Rmult_lt_0_compat.
Qed.

Lemma quotient_nonneg (p : nat) :
  0 <= cross_section_area (material (config this)) -> 0 <= nEA / L ^ p.
Proof.
  intros HA. pose proof nE_pos. pose proof span_pos.
  apply Rmult_le_pos.
  - unfold nEA. apply Rmult_le_pos; lra.
  - left. apply Rinv_0_lt_compat. now apply pow_lt.
Qed.

Lemma quotient_nonpos (p : nat) :
  cross_section_area (material (config this)) <= 0 -> nEA / L ^ p <= 0.
Proof.
  intros HA. pose proof nE_pos as HnE. pose proof span_pos.
  assert (0 < / L ^ p) by (apply Rinv_0_lt_compat; now apply pow_lt).
  assert (nEA <= 0) by (unfold nEA; nra).
  unfold Rdiv. nra.
Qed.

Lemma stiffness_nonneg :
  0 <= cross_section_area (material (config this)) ->
  0 <= k1R this /\ 0 <= k2R this /\ 0 <= k3R this.
Proof.
  intros HA.
  pose proof (quotient_nonneg 1 HA) as Q1. rewrite pow_1 in Q1.
  pose proof (quotient_nonneg 2 HA) as Q2.
  pose proof (quotient_nonneg 3 HA) as Q3.
  pose proof (sin_theta_bounds this span_neq_0) as [Hs _].
  pose proof (sin_theta_sq_bounds this span_neq_0) as [Hs2 _].
  rewrite k1R_value, k2R_value, k3R_value. fold L. repeat split.
  - lra.
  - apply Rmult_le_pos; [apply Rmult_le_pos; assumption|lra].
  - apply Rmult_le_pos; [apply Rmult_le_pos; assumption|lra].
Qed.

Lemma stiffness_nonpos :
  cross_section_area (material (config this)) <= 0 ->
  k1R this <= 0 /\ k2R this <= 0 /\ k3R this <= 0.
Proof.
  intros HA.
  pose proof (quotient_nonpos 1 HA) as Q1. rewrite pow_1 in Q1.
  pose proof (quotient_nonpos 2 HA) as Q2.
  pose proof (quotient_nonpos 3 HA) as Q3.
  pose proof (sin_theta_bounds this span_neq_0) as [Hs _].
  pose proof (sin_theta_sq_bounds this span_neq_0) as [Hs2 _].
  rewrite k1R_value, k2R_value, k3R_value. fold L. repeat split.
  - lra.
  - assert (nEA / L ^ 2 * sin (thetaR this) <= 0) by nra. lra.
  - assert (nEA / L ^ 3 * sin (thetaR this) ^ 2 <= 0) by nra. lra.
Qed.

Lemma k1R_neg :
  cross_section_area (material (config this)) < 0 -> k1R this < 0.
Proof.
  intros HA. pose proof nE_pos as HnE. pose proof span_pos.
  assert (0 < / L) by now apply Rinv_0_lt_compat.
  assert (nEA < 0) by (unfold nEA; nra).
  rewrite k1R_value. unfold Rdiv. nra.
Qed.

Lemma k1R_pos :
  0 < cross_section_area (material (config this)) -> 0 < k1R this.
Proof.
  intros HA. pose proof nE_pos as HnE. pose proof span_pos.
  assert (0 < / L) by now apply Rinv_0_lt_compat.
  assert (0 < nEA) by (unfold nEA; nra).
  rewrite k1R_value. unfold Rdiv. nra.
Qed.

End StiffnessSigns.

(** ** Bounds on the deflection *)

Lemma fallbackR_bounds this a :
  0 < net_span (geometry (config this)) ->
  0 < impact_energy this ->
  0 <= a ->
  0 <= fallbackR this a <= 0.5 * net_span (geometry (config this)).
Proof.
  intros HL He Ha. unfold fallbackR.
  destruct (Req_dec_T a 0) as [|Hne]; [lra|].
  assert (0 < impact_energy this / a) as Hq
    by (apply Rdiv_lt_0_compat; lra).
  unfold Rmin. destruct (Rle_dec _ _); lra.
Qed.

Lemma deflectionR_bounds this a b c :
  0 < net_span (geometry (config this)) ->
  0 < impact_energy this ->
  0 <= a ->
  0 <= deflectionR this a b c <= 0.5 * net_span (geometry (config this)).
Proof.
  intros HL He Ha. unfold deflectionR.
  pose proof (bisectR_bracket (energyR this a b c) maxIterations
                0 (net_span (geometry (config this)) * 0.5)) as Hb.
  destruct (bisectR _ _ _ _) as [mid|l r].
  - assert (0 <= mid <= net_span (geometry (config this)) * 0.5) as Hm
      by (apply Hb; lra).
    rewrite Rmax_right by lra. lra.
  - now apply fallbackR_bounds.
Qed.

(** With a negative cross-section area every coefficient is non-positive,
    the loop never meets the tolerance and the fallback is negative. *)
Lemma deflectionR_negative_area this :
  0 < g this ->
  checked_positive (config this) ->
  cross_section_area (material (config this)) < 0 ->
  tolerance <= impact_energy this ->
  delta_max_of this = impact_energy this / k1R this /\
  delta_max_of this < 0.
Proof.
  intros Hg Hv HA Htol.
  pose proof (span_pos this Hv) as HL.
  pose proof (impact_energy_pos this Hg Hv) as He.
  pose proof (k1R_neg this Hv HA) as Hk1.
  destruct (stiffness_nonpos this Hv) as (H1 & H2 & H3); [lra|].
  assert (impact_energy this / k1R this < 0) as Hq.
  { unfold Rdiv. apply Rinv_lt_0_compat in Hk1. nra. }
  unfold delta_max_of, deflectionR.
  destruct (bisectR_never_converges
              (energyR this (k1R this) (k2R this) (k3R this)) maxIterations
              0 (net_span (geometry (config this)) * 0.5)) as (l' & ->).
  - lra.
  - intros x Hx.
    pose proof (energyR_nonpos_coeffs this _ _ _ x H1 H2 H3 (proj1 Hx)).
    lra.
  - unfold fallbackR. destruct (Req_dec_T (k1R this) 0); [lra|].
    rewrite Rmin_left by lra. split; [reflexivity|assumption].
Qed.

(** ** Concrete configurations *)

(** Reduce the fields of a concrete configuration. *)
Ltac cfg_fields :=
  cbv [new updateConfig negative_area_config short_net_config rejected_config
       with_cross_section_area with_net_span with_mass with_fall_height
       getDefaultConfig
       config g results scenario_name material geometry impact analysis
       material_name elastic_modulus yield_strength density
       cross_section_area strain_limit
       net_span num_strands installation_angle safety_factor_min
       max_deflection_ratio mass fall_height impact_velocity
       impact_energy checked_positive] in *.

Lemma default_config_valid : validateConfig (new None) = [].
Proof. apply validateConfig_nil. cfg_fields. lra. Qed.

Lemma negative_area_config_valid :
  validateConfig (new (Some negative_area_config)) = [].
Proof. apply validateConfig_nil. cfg_fields. lra. Qed.

Lemma short_net_config_valid h :
  0 < h -> validateConfig (new (Some (short_net_config h))) = [].
Proof. intros Hh. apply validateConfig_nil. cfg_fields. lra. Qed.

(** ** Error messages *)

Lemma string_app_assoc (a b c : string) :
  ((a ++ b) ++ c = a ++ (b ++ c))%string.
Proof. induction a as [|ch a IH]; cbn; [reflexivity|now rewrite IH]. Qed.

Lemma string_app_nil_r (a : string) : (a ++ "" = a)%string.
Proof. induction a as [|ch a IH]; cbn; [reflexivity|now rewrite IH]. Qed.

Lemma carries_prefix (p s m : string) :
  carries s m -> carries (p ++ s) m.
Proof.
  intros (pre & post & ->). exists (p ++ pre)%string, post.
  now rewrite string_app_assoc.
Qed.

(** Every element of a list is carried by the list joined on [sep]. *)
Lemma join_carries (sep : string) (l : list string) (m : string) :
  In m l -> carries (String.concat sep l) m.
Proof.
  induction l as [|x l IH]; [contradiction|].
  intros [->|Hin].
  - destruct l as [|y l].
    + exists ""%string, ""%string. cbn. now rewrite string_app_nil_r.
    + exists ""%string, (sep ++ String.concat sep (y :: l))%string.
      reflexivity.
  - destruct l as [|y l]; [contradiction|].
    change (String.concat sep (x :: y :: l))
      with (x ++ sep ++ String.concat sep (y :: l))%string.
    apply carries_prefix, carries_prefix, IH, Hin.
Qed.

Lemma validateConfig_not_nil this :
  ~ checked_positive (config this) -> validateConfig this <> [].
Proof. intros Hn HE. apply Hn. now apply validateConfig_nil. Qed.

Lemma analyze_invalid this :
  validateConfig this <> [] ->
  analyze this
  = (Throw ("Configuration errors: "
            ++ String.concat ", " (validateConfig this))%string,
     this).
Proof.
  intros Hne. unfold analyze.
  destruct (validateConfig this) as [|e errors]; [contradiction|].
  reflexivity.
Qed.

Lemma rejected_config_errors :
  validateConfig (new (Some rejected_config))
  = ["Net span must be positive"; "Impact mass must be positive"]%string.
Proof.
  rewrite validateConfig_checks. cbv [checks flat_map fst snd].
  repeat match goal with
  | |- context [violated ?x] =>
      first [ rewrite (proj2 (violated_true x)) by (cfg_fields; lra)
            | rewrite (proj2 (violated_false x)) by (cfg_fields; lra) ]
  end.
  reflexivity.
Qed.

(** ** What [analyze] reads and stores *)

(** [analyze] reads the configuration and [g] of the analyzer, never the
    results an earlier call stored. *)
Lemma analyze_ignores_results c gv r1 r2 :
  fst (analyze {| config := c; g := gv; results := r1 |})
  = fst (analyze {| config := c; g := gv; results := r2 |}).
Proof.
  unfold analyze, validateConfig, _calculateStiffnessCoefficients,
    _calculateMaxDeflection, _calculateMaxStress, energyEquation.
  cbn [config g].
  match goal with |- context [(0 <? ?n)%nat] => destruct (0 <? n)%nat end;
    reflexivity.
Qed.

Lemma validateConfig_ignores_results c gv r1 r2 :
  validateConfig {| config := c; g := gv; results := r1 |}
  = validateConfig {| config := c; g := gv; results := r2 |}.
Proof. reflexivity. Qed.

(** A call that passes validation returns its result and stores it. *)
Lemma analyze_normal this :
  validateConfig this = [] ->
  exists r,
    analyze this
    = (Normal r, {| config := config this; g := g this; results := Some r |}).
Proof.
  intros HV. unfold analyze. rewrite HV. eexists. reflexivity.
Qed.

Lemma analyze_ignores_solver_settings c gv r1 r2 iters tol :
  match fst (analyze {| config := c; g := gv; results := r1 |}),
        fst (analyze {| config := with_solver_settings c iters tol;
                        g := gv; results := r2 |}) with
  | Normal r, Normal r' => same_outcome r r'
  | Throw m, Throw m' => m = m'
  | _, _ => False
  end.
Proof.
  unfold analyze, validateConfig, _calculateStiffnessCoefficients,
    _calculateMaxDeflection, _calculateMaxStress, energyEquation.
  cbn [config g material geometry impact with_solver_settings].
  match goal with |- context [(0 <? ?n)%nat] => destruct (0 <? n)%nat end;
    cbn [fst]; [reflexivity|].
  repeat split.
Qed.

(** ** How the solver leaves its loop *)

(** The two ways out of the loop, on any numbers: a return at the first
    midpoint within tolerance, or a fall through after all iterations. *)
Lemma bisection_loop_exits (f : Js.num -> Js.num) n : forall l r,
  match bisection_loop f n l r with
  | Return v =>
      exists pre mid,
        loop_midpoints f n l r = pre ++ [mid] /\
        (List.length pre < n)%nat /\
        Forall (fun x => within_tolerance f x = false) pre /\
        within_tolerance f mid = true /\
        v = Js.max 0 mid
  | Fallthrough _ _ =>
      List.length (loop_midpoints f n l r) = n /\
      Forall (fun x => within_tolerance f x = false) (loop_midpoints f n l r)
  end.
Proof.
  induction n as [|n IH]; intros l r; cbn [bisection_loop loop_midpoints].
  - split; [reflexivity|constructor].
  - set (mid := ((l + r) / 2)%js).
    destruct (Js.abs (f mid) < tolerance)%js eqn:Ht.
    + exists [], mid. cbn [app List.length].
      repeat split; [lia|constructor|exact Ht].
    + assert (forall l' r',
        match bisection_loop f n l' r' with
        | Return v =>
            exists pre mid0,
              mid :: loop_midpoints f n l' r' = pre ++ [mid0] /\
              (List.length pre < S n)%nat /\
              Forall (fun x => within_tolerance f x = false) pre /\
              within_tolerance f mid0 = true /\
              v = Js.max 0 mid0
        | Fallthrough _ _ =>
            List.length (mid :: loop_midpoints f n l' r') = S n /\
            Forall (fun x => within_tolerance f x = false)
              (mid :: loop_midpoints f n l' r')
        end) as Hstep.
      { intros l' r'. specialize (IH l' r').
        destruct (bisection_loop f n l' r') as [v|l2 r2].
        - destruct IH as (pre & mid0 & -> & Hlen & Hpre & Hin & ->).
          exists (mid :: pre), mid0. cbn [app List.length].
          repeat split; [lia|constructor; assumption|assumption].
        - destruct IH as (Hlen & Hall). cbn [List.length].
          split; [now rewrite Hlen|constructor; assumption]. }
      destruct (f mid > 0)%js; apply Hstep.
Qed.

(** ** The solver in exact arithmetic *)

Lemma loop_midpoints_Fin (f : Js.num -> Js.num) (fR : R -> R) :
  (forall x, f (Js.Fin x) = Js.Fin (fR x)) ->
  forall n l r,
    loop_midpoints f n (Js.Fin l) (Js.Fin r)
    = map Js.Fin (midpoints fR n l r).
Proof.
  intros Hf. induction n as [|n IH]; intros l r;
    cbn [loop_midpoints midpoints map].
  - reflexivity.
  - rewrite add_Fin, (div_Fin _ 2 two_neq_0), Hf.
    cbn [Js.abs Js.gt Js.lt]. f_equal.
    destruct (Rlt_dec (Rabs (fR ((l + r) / 2))) tolerance); [reflexivity|].
    destruct (Rlt_dec 0 (fR ((l + r) / 2))); apply IH.
Qed.

(** Where the loop never meets the tolerance from below, its midpoints
    climb from the first one. *)
Lemma midpoints_climb (f : R -> R) n : forall l r,
  l <= r ->
  (forall x, l <= x <= r -> f x <= - tolerance) ->
  Forall (fun x => (l + r) / 2 <= x) (midpoints f n l r).
Proof.
  assert (0 < tolerance) as Htol by (unfold tolerance; lra).
  induction n as [|n IH]; intros l r Hlr Hf; cbn [midpoints].
  - constructor.
  - assert (f ((l + r) / 2) <= - tolerance) as Hm by (apply Hf; lra).
    constructor; [lra|].
    destruct (Rlt_dec (Rabs (f ((l + r) / 2))) tolerance) as [Ht|Ht];
      [constructor|].
    destruct (Rlt_dec 0 (f ((l + r) / 2))); [lra|].
    eapply Forall_impl; [|apply (IH ((l + r) / 2) r)].
    + cbn beta. intros; lra.
    + lra.
    + intros x Hx. apply Hf. lra.
Qed.

Section Solver.

Variable this : SafetyNetAnalyzer.
Variables a b c : R.
Hypothesis a_nonneg : 0 <= a.
Hypothesis b_nonneg : 0 <= b.
Hypothesis c_nonneg : 0 <= c.
Hypothesis span_positive : 0 < net_span (geometry (config this)).

Let half_span := net_span (geometry (config this)) * 0.5.
Let f := energyR this a b c.

Lemma energyR_at_0 : f 0 = - impact_energy this.
Proof. unfold f, energyR. lra. Qed.

(** The impact energy exceeds what the net stores at half its span: the
    loop runs out of iterations. *)
Lemma solver_falls_through :
  f half_span <= - tolerance ->
  exists l', bisectR f maxIterations 0 half_span = FallthroughR l' half_span.
Proof.
  intros Hend. apply bisectR_never_converges.
  - unfold half_span. lra.
  - intros x [Hx0 Hx].
    pose proof (energyR_increasing this a b c a_nonneg b_nonneg c_nonneg
                  x half_span Hx0 Hx). fold f in H. lra.
Qed.

(** A bracket with the sign change, and 100 halvings that make it narrow
    enough for the slope: the loop returns. *)
Lemma solver_returns :
  tolerance <= impact_energy this ->
  tolerance <= f half_span ->
  (a * half_span + b * half_span ^ 2 + c * half_span ^ 3) * (half_span - 0)
  < 2 * tolerance * 2 ^ maxIterations ->
  exists mid, bisectR f maxIterations 0 half_span = ReturnR mid.
Proof.
  intros He Hend Hw.
  apply (bisectR_converges f
           (a * half_span + b * half_span ^ 2 + c * half_span ^ 3)).
  - unfold half_span. lra.
  - intros x y Hx Hxy Hy.
    apply (energyR_slope this a b c a_nonneg b_nonneg c_nonneg); assumption.
  - rewrite energyR_at_0. lra.
  - assumption.
  - assumption.
Qed.

(** A returned midpoint lies beyond every point where the stored energy
    is still short of the impact energy by the tolerance. *)
Lemma solver_returns_beyond p mid :
  0 <= p -> f p <= - tolerance ->
  bisectR f maxIterations 0 half_span = ReturnR mid -> p < mid.
Proof.
  intros Hp Hfp. apply bisectR_return_beyond.
  - unfold half_span. lra.
  - intros x [Hx0 Hx].
    pose proof (energyR_increasing this a b c a_nonneg b_nonneg c_nonneg
                  x p Hx0 Hx). fold f in H. lra.
Qed.

End Solver.

(** ** The default net shortened to a span of 1 m *)

Section ShortNet.

Variable h : R.
Hypothesis h_pos : 0 < h.

Local Abbreviation this := (short_net h).

Lemma short_net_valid : checked_positive (config this).
Proof. apply validateConfig_nil, short_net_config_valid, h_pos. Qed.

Lemma short_net_k1 : k1R this = 4375000 / 13.
Proof.
  rewrite (k1R_value this short_net_valid). unfold short_net. cfg_fields. lra.
Qed.

Lemma short_net_k2 : 0 <= k2R this <= 4375000 / 13.
Proof.
  pose proof (sin_theta_bounds this (span_neq_0 this short_net_valid)) as Hs.
  rewrite (k2R_value this short_net_valid).
  set (s := sin (thetaR this)) in *. clearbody s.
  unfold short_net. cfg_fields. lra.
Qed.

Lemma short_net_k3 : 0 <= k3R this <= 4375000 / 13.
Proof.
  pose proof (sin_theta_sq_bounds this (span_neq_0 this short_net_valid))
    as Hs.
  rewrite (k3R_value this short_net_valid).
  set (s := sin (thetaR this) ^ 2) in *. clearbody s.
  unfold short_net. cfg_fields. lra.
Qed.

Lemma short_net_energy : impact_energy this = 981 * h.
Proof. unfold short_net. cfg_fields. lra. Qed.

End ShortNet.

Section ShortNetSolver.

Variable h : R.

Local Abbreviation this := (short_net h).
Local Abbreviation f := (short_net_balance h).

Lemma short_net_span : net_span (geometry (config this)) = 1.
Proof. reflexivity. Qed.

(** The value of the energy balance on the short net, between the
    bounds the three coefficients allow. *)
Lemma short_net_energyR x :
  0 < h -> 0 <= x ->
  0.5 * (4375000 / 13) * x ^ 2 - 981 * h <= f x
  /\ f x <= 4375000 / 13 * (0.5 * x ^ 2 + 1 / 3 * x ^ 3 + 0.25 * x ^ 4)
            - 981 * h.
Proof.
  intros Hh Hx. unfold short_net_balance, energyR.
  rewrite (short_net_k1 h Hh), (short_net_energy h).
  pose proof (short_net_k2 h Hh) as Hb. pose proof (short_net_k3 h Hh) as Hc.
  set (b := k2R this) in *. set (c := k3R this) in *. clearbody b c.
  assert (0 <= x ^ 3) as H3 by (apply pow_le; assumption).
  assert (0 <= x ^ 4) as H4 by (apply pow_le; assumption).
  assert (0 <= b * x ^ 3 <= 4375000 / 13 * x ^ 3) by nra.
  assert (0 <= c * x ^ 4 <= 4375000 / 13 * x ^ 4) by nra.
  lra.
Qed.

Lemma short_net_coeffs_nonneg :
  0 < h -> 0 <= k1R this /\ 0 <= k2R this /\ 0 <= k3R this.
Proof.
  intros Hh. apply (stiffness_nonneg this (short_net_valid h Hh)).
  unfold short_net. cfg_fields. lra.
Qed.

(** From a fall of 63 m on, the loop falls through and the solver
    returns the linear estimate [m g h / k1]. *)
Lemma short_net_falls_through :
  63 <= h ->
  exists l', bisectR f maxIterations 0 (1 * 0.5) = FallthroughR l' (1 * 0.5).
Proof.
  intros Hh. assert (0 < h) as Hpos by lra.
  destruct (short_net_coeffs_nonneg Hpos) as (Ha & Hb & Hc).
  rewrite <- short_net_span.
  apply (solver_falls_through this _ _ _ Ha Hb Hc).
  - rewrite short_net_span. lra.
  - rewrite short_net_span. fold f.
    destruct (short_net_energyR (1 * 0.5) Hpos) as [_ Hub]; [lra|].
    unfold tolerance. lra.
Qed.

Lemma short_net_fallback :
  63 <= h -> h <= 170 ->
  delta_max_of this = 981 * h / (4375000 / 13).
Proof.
  intros Hh Hh'. assert (0 < h) as Hpos by lra.
  unfold delta_max_of, deflectionR. fold f. rewrite short_net_span.
  destruct (short_net_falls_through Hh) as (l' & ->).
  unfold fallbackR. rewrite (short_net_k1 h Hpos), (short_net_energy h).
  destruct (Req_dec_T (4375000 / 13) 0) as [|_]; [lra|].
  rewrite short_net_span. apply Rmin_left.
  apply (Rmult_le_reg_r (4375000 / 13)); [lra|].
  replace (981 * h / (4375000 / 13) * (4375000 / 13)) with (981 * h)
    by (field; lra).
  lra.
Qed.

(** For a fall between 37 m and 42 m the loop returns, at a midpoint
    beyond 0.4 m. *)
Lemma short_net_returns :
  37 <= h -> h <= 42 ->
  exists mid,
    bisectR f maxIterations 0 (1 * 0.5) = ReturnR mid /\ 0.4 < mid.
Proof.
  intros Hh Hh'. assert (0 < h) as Hpos by lra.
  destruct (short_net_coeffs_nonneg Hpos) as (Ha & Hb & Hc).
  assert (0 < net_span (geometry (config this))) as HL
    by (rewrite short_net_span; lra).
  destruct (solver_returns this _ _ _ Ha Hb Hc HL) as (mid & Hmid).
  - rewrite (short_net_energy h). unfold tolerance. lra.
  - rewrite short_net_span. fold f.
    destruct (short_net_energyR (1 * 0.5) Hpos) as [Hlb _]; [lra|].
    unfold tolerance. lra.
  - rewrite short_net_span, (short_net_k1 h Hpos).
    pose proof (short_net_k2 h Hpos) as Hb2.
    pose proof (short_net_k3 h Hpos) as Hc2.
    unfold tolerance, maxIterations. lra.
  - rewrite short_net_span in Hmid. fold f in Hmid.
    exists mid. split; [exact Hmid|].
    rewrite <- short_net_span in Hmid.
    apply (solver_returns_beyond this _ _ _ Ha Hb Hc HL 0.4 mid);
      [lra| |exact Hmid].
    fold f. destruct (short_net_energyR 0.4 Hpos) as [_ Hub]; [lra|].
    unfold tolerance. lra.
Qed.

Lemma short_net_returned :
  37 <= h -> h <= 42 -> 0.4 < delta_max_of this.
Proof.
  intros Hh Hh'. unfold delta_max_of, deflectionR. fold f.
  rewrite short_net_span.
  destruct (short_net_returns Hh Hh') as (mid & -> & Hmid).
  rewrite Rmax_right; lra.
Qed.

End ShortNetSolver.

(** ** The result of [analyze] and the exit of the loop *)

Lemma analyze_fields this :
  validateConfig this = [] ->
  exists r,
    fst (analyze this) = Normal r /\
    stiffness_coefficients r = _calculateStiffnessCoefficients this /\
    max_deflection (structural_response r)
    = _calculateMaxDeflection this
        (k1 (stiffness_coefficients r)) (k2 (stiffness_coefficients r))
        (k3 (stiffness_coefficients r)).
Proof.
  intros HV. unfold analyze. rewrite HV. eexists. repeat split.
Qed.

Lemma Normal_inj (A : Type) (x y : A) : Normal x = Normal y -> x = y.
Proof. now intros [= ->]. Qed.

Lemma deflection_fallthrough this (a b c : Js.num) l' r' :
  bisection_loop (energyEquation this a b c) maxIterations 0
    (net_span (geometry (config this)) * 0.5)%js = Fallthrough l' r' ->
  _calculateMaxDeflection this a b c
  = Js.min (mass (impact (config this)) * g this
            * fall_height (impact (config this)) / a)%js
           (net_span (geometry (config this)) * 0.5)%js.
Proof.
  intros H. unfold _calculateMaxDeflection. cbv zeta. rewrite H. reflexivity.
Qed.

Lemma loop_Fin_span this :
  bisection_loop (energyEquation this (k1R this) (k2R this) (k3R this))
    maxIterations 0 (net_span (geometry (config this)) * 0.5)%js
  = lift_exit (bisectR (energyR this (k1R this) (k2R this) (k3R this))
                 maxIterations 0 (net_span (geometry (config this)) * 0.5)).
Proof.
  rewrite mul_Fin. apply bisection_loop_Fin. intros. apply energyEquation_Fin.
Qed.

Lemma energy_balanced_intro this r d :
  g this = 9.81 ->
  stiffness_coefficients r
  = {| k1 := Js.Fin (k1R this); k2 := Js.Fin (k2R this);
       k3 := Js.Fin (k3R this) |} ->
  max_deflection (structural_response r) = Js.Fin d ->
  Rabs (energyR this (k1R this) (k2R this) (k3R this) d) < tolerance ->
  energy_balanced this r.
Proof.
  intros Hg Hks Hd Hbal.
  exists (k1R this), (k2R this), (k3R this), d.
  split; [exact Hks|]. split; [exact Hd|].
  unfold energyR, impact_energy, tolerance in Hbal.
  rewrite Hg in Hbal. exact Hbal.
Qed.

Lemma deflectionR_cases this a b c :
  (exists mid,
     bisectR (energyR this a b c) maxIterations
       0 (net_span (geometry (config this)) * 0.5) = ReturnR mid /\
     deflectionR this a b c = Rmax 0 mid) \/
  (exists l' r',
     bisectR (energyR this a b c) maxIterations
       0 (net_span (geometry (config this)) * 0.5) = FallthroughR l' r' /\
     deflectionR this a b c = fallbackR this a).
Proof.
  unfold deflectionR.
  destruct (bisectR _ _ _ _) as [mid|l' r']; [left|right]; eauto.
Qed.

Lemma loop_midpoints_Fin_span this :
  loop_midpoints (energyEquation this (k1R this) (k2R this) (k3R this))
    maxIterations 0 (net_span (geometry (config this)) * 0.5)%js
  = map Js.Fin
      (midpoints (energyR this (k1R this) (k2R this) (k3R this))
         maxIterations 0 (net_span (geometry (config this)) * 0.5)).
Proof.
  rewrite mul_Fin. apply loop_midpoints_Fin. intros. apply energyEquation_Fin.
Qed.

Lemma loop_returns_iff this :
  checked_positive (config this) ->
  loop_returns this <->
  exists mid,
    bisectR (energyR this (k1R this) (k2R this) (k3R this)) maxIterations
      0 (net_span (geometry (config this)) * 0.5) = ReturnR mid.
Proof.
  intros Hv. unfold loop_returns.
  rewrite (stiffness_Fin this (span_neq_0 this Hv)). cbn [k1 k2 k3].
  cbv zeta. rewrite loop_Fin_span.
  destruct (bisectR _ _ _ _) as [mid|l' r']; cbn [lift_exit]; split.
  - intros _. now exists mid.
  - intros _. eexists. reflexivity.
  - intros (v & [=]).
  - intros (mid & [=]).
Qed.

(** ** Two fall heights on one net *)

Section FallHeight.

Variables this1 this2 : SafetyNetAnalyzer.
Variable h2 : R.
Hypothesis same_g : g this2 = g this1.
Hypothesis same_config : config this2 = with_fall_height (config this1) h2.

Lemma fall_height_stiffness :
  k1R this2 = k1R this1 /\ k2R this2 = k2R this1 /\ k3R this2 = k3R this1.
Proof.
  unfold k1R, k2R, k3R, thetaR. rewrite same_config. repeat split.
Qed.

Lemma fall_height_span :
  net_span (geometry (config this2)) = net_span (geometry (config this1)).
Proof. now rewrite same_config. Qed.

Lemma fall_height_energy :
  impact_energy this2 = mass (impact (config this1)) * g this1 * h2.
Proof. unfold impact_energy. now rewrite same_config, same_g. Qed.

Lemma fall_height_balance a b c x :
  0 < g this1 ->
  0 < mass (impact (config this1)) ->
  fall_height (impact (config this1)) <= h2 ->
  energyR this2 a b c x <= energyR this1 a b c x.
Proof.
  intros Hg Hm Hh. unfold energyR. rewrite fall_height_energy.
  unfold impact_energy.
  assert (0 < mass (impact (config this1)) * g this1)
    by now apply Rmult_lt_0_compat.
  nra.
Qed.

Lemma fall_height_valid :
  checked_positive (config this1) ->
  fall_height (impact (config this1)) <= h2 ->
  checked_positive (config this2).
Proof.
  unfold checked_positive. rewrite same_config.
  cbn [with_fall_height material geometry impact elastic_modulus
       yield_strength net_span num_strands mass fall_height].
  intros (H1 & H2 & H3 & H4 & H5 & H6) Hh. repeat split; try assumption.
  lra.
Qed.

End FallHeight.

(** * The claims *)

(** ** C1: bounds on the maximum deflection *)




(** ** C2: the energy balance at the reported deflection *)

(** C2, as stated, fails: on the 1 m net with a fall of 70 m the impact
    energy exceeds what the net stores at half its span, [analyze]
    returns the fallback estimate, the energy balance is off by more
    than the tolerance there, and the result (a [Results] record) has no
    field that says so. *)
Lemma C2_unbalanced_result :
  validateConfig (short_net 70) = [] /\
  exists r,
    fst (analyze (short_net 70)) = Normal r /\
    ~ energy_balanced (short_net 70) r.
Proof.
  assert (0 < 70) as Hpos by lra.
  pose proof (short_net_config_valid 70 Hpos) as HV.
  fold (short_net 70) in HV. split; [exact HV|].
  assert (0 < g (short_net 70)) as Hg by (unfold short_net; cfg_fields; lra).
  destruct (analyze_valid (short_net 70) Hg HV)
    as (r & Hr & _ & Hks & Hd & _).
  exists r. rewrite Hr. split; [reflexivity|].
  intros (a & b & c & d & Hks' & Hd' & Hbal).
  rewrite Hks in Hks'. rewrite Hd in Hd'.
  injection Hks' as <- <- <-. injection Hd' as <-.
  rewrite (short_net_fallback 70) in Hbal by lra.
  assert (0 <= 981 * 70 / (4375000 / 13) <= 1 * 0.5) as Hrange by lra.
  set (d := 981 * 70 / (4375000 / 13)) in *.
  destruct (short_net_coeffs_nonneg 70 Hpos) as (Ha & Hb & Hc).
  pose proof (energyR_increasing (short_net 70) _ _ _ Ha Hb Hc
                d (1 * 0.5) (proj1 Hrange) (proj2 Hrange)) as Hinc.
  destruct (short_net_energyR 70 (1 * 0.5) Hpos) as [_ Hub]; [lra|].
  unfold short_net_balance in Hub. unfold energyR in Hinc, Hub.
  rewrite (short_net_energy 70) in Hinc, Hub.
  change (mass (impact (config (short_net 70)))) with 100.0 in Hbal.
  change (fall_height (impact (config (short_net 70)))) with 70 in Hbal.
  apply Rabs_def2 in Hbal. lra.
Qed.

(** C2, amended: on every configuration that passes validation, either
    the loop returned and the energy balance holds within tolerance at
    the reported deflection, or the loop ran out of its 100 iterations and
    the reported deflection is the linear estimate [min(m g h / k1,
    0.5 L)], for which no balance is promised; the result carries no
    convergence flag. *)
Theorem C2_energy_balance_or_fallback this :
  g this = 9.81 ->
  validateConfig this = [] ->
  exists r,
    fst (analyze this) = Normal r /\
    (energy_balanced this r \/ fell_back this r).
Proof.
  intros Hg HV.
  assert (0 < g this) as Hg' by lra.
  pose proof HV as Hv. apply validateConfig_nil in Hv.
  pose proof (span_pos this Hv) as HL.
  destruct (analyze_valid this Hg' HV) as (r & Hr & _ & Hks & Hd & _).
  destruct (analyze_fields this HV) as (r' & Hr' & _ & Hd').
  rewrite Hr in Hr'. cbn [fst] in Hr'. apply Normal_inj in Hr'. subst r'.
  exists r. rewrite Hr. split; [reflexivity|].
  rewrite Hks in Hd'. cbn [k1 k2 k3] in Hd'.
  pose proof (loop_Fin_span this) as Hloop.
  destruct (deflectionR_cases this (k1R this) (k2R this) (k3R this))
    as [(mid & Hbis & Hdef)|(l' & r' & Hbis & Hdef)].
  - left.
    pose proof (bisectR_bracket
                  (energyR this (k1R this) (k2R this) (k3R this))
                  maxIterations
                  0 (net_span (geometry (config this)) * 0.5)) as Hb.
    rewrite Hbis in Hb.
    assert (0 <= mid) as Hmid by (apply Hb; lra).
    apply (energy_balanced_intro this r mid Hg Hks).
    + rewrite Hd. unfold delta_max_of. rewrite Hdef.
      now rewrite Rmax_right.
    + exact (bisectR_return_tol _ _ _ _ _ Hbis).
  - right. rewrite Hbis in Hloop. cbn [lift_exit] in Hloop.
    unfold fell_back. rewrite Hks. cbn [k1 k2 k3]. split.
    + exists (Js.Fin l'), (Js.Fin r'). exact Hloop.
    + rewrite Hd'. exact (deflection_fallthrough this _ _ _ _ _ Hloop).
Qed.

(** C2, amended, at the default configuration. *)
Lemma C2_energy_balance_or_fallback_witness :
  exists r,
    fst (analyze (new None)) = Normal r /\
    (energy_balanced (new None) r \/ fell_back (new None) r).
Proof.
  apply (C2_energy_balance_or_fallback (new None)).
  - reflexivity.
  - apply default_config_valid.
Defined.

(** ** C3: when the solver returns what *)

(** C3, as stated, fails: on the 1 m net with a fall of 70 m the loop
    runs through all its 100 iterations, every midpoint it reaches is at
    least 0.25, and [analyze] returns the fallback estimate, which is
    below 0.25: not a midpoint the loop reached. *)
Lemma C3_exhausted_loop_returns_fallback :
  validateConfig (short_net 70) = [] /\
  exists r d,
    fst (analyze (short_net 70)) = Normal r /\
    max_deflection (structural_response r) = Js.Fin d /\
    let ks := stiffness_coefficients r in
    let f := energyEquation (short_net 70) (k1 ks) (k2 ks) (k3 ks) in
    let span := net_span (geometry (config (short_net 70))) in
    let ms := loop_midpoints f maxIterations 0 (span * 0.5)%js in
    List.length ms = maxIterations /\
    Forall (fun m => within_tolerance f m = false) ms /\
    Forall (fun m => exists x, m = Js.Fin x /\ d < x) ms.
Proof.
  assert (0 < 70) as Hpos by lra.
  pose proof (short_net_config_valid 70 Hpos) as HV.
  fold (short_net 70) in HV. split; [exact HV|].
  assert (0 < g (short_net 70)) as Hg by (unfold short_net; cfg_fields; lra).
  destruct (analyze_valid (short_net 70) Hg HV)
    as (r & Hr & _ & Hks & Hd & _).
  exists r, (delta_max_of (short_net 70)).
  rewrite Hr. split; [reflexivity|]. split; [exact Hd|].
  rewrite Hks. cbn [k1 k2 k3]. cbv zeta.
  rewrite loop_midpoints_Fin_span.
  destruct (short_net_falls_through 70) as (l' & Hbis); [lra|].
  rewrite <- (short_net_span 70) in Hbis.
  destruct (bisectR_fallthrough_midpoints _ _ _ _ _ _ Hbis) as (Hlen & Hoff).
  destruct (short_net_coeffs_nonneg 70 Hpos) as (Ha & Hb & Hc).
  assert (forall x, 0 <= x <= net_span (geometry (config (short_net 70))) * 0.5
                    -> short_net_balance 70 x <= - tolerance) as Hlow.
  { intros x [Hx0 Hx]. rewrite short_net_span in Hx.
    pose proof (energyR_increasing (short_net 70) _ _ _ Ha Hb Hc
                  x (1 * 0.5) Hx0 Hx) as Hinc.
    destruct (short_net_energyR 70 (1 * 0.5) Hpos) as [_ Hub]; [lra|].
    unfold short_net_balance in *. unfold tolerance. lra. }
  pose proof (midpoints_climb (short_net_balance 70) maxIterations
                0 (net_span (geometry (config (short_net 70))) * 0.5))
    as Hclimb.
  specialize (Hclimb ltac:(rewrite short_net_span; lra) Hlow).
  unfold short_net_balance in Hclimb, Hlen, Hoff.
  repeat split.
  - rewrite length_map. exact Hlen.
  - apply Forall_map. eapply Forall_impl; [|exact Hoff].
    cbn beta. intros x Hx. unfold within_tolerance, off_tolerance in *.
    rewrite energyEquation_Fin. cbn [Js.abs]. apply lt_Fin_false. lra.
  - apply Forall_map. eapply Forall_impl; [|exact Hclimb].
    cbn beta. intros x Hx. exists x. split; [reflexivity|].
    rewrite short_net_span in Hx.
    rewrite (short_net_fallback 70) by lra. lra.
Qed.

(** C3, amended: on every configuration that passes validation the
    solver leaves its loop in one of two ways.  Either one of its 100
    iterations reaches a midpoint with [|g(mid)| < tolerance]; then the
    deflection is the first such midpoint, clamped to be at least 0.  Or
    all 100 iterations pass without one; then the deflection is the linear
    estimate [min(m g h / k1, 0.5 L)]. *)
Theorem C3_solver_exits this :
  validateConfig this = [] ->
  exists r, fst (analyze this) = Normal r /\ solver_exit this r.
Proof.
  intros HV. unfold analyze. rewrite HV. cbn [List.length Nat.ltb Nat.leb].
  eexists. split; [reflexivity|]. unfold solver_exit.
  cbn [stiffness_coefficients structural_response max_deflection].
  set (ks := _calculateStiffnessCoefficients this).
  set (f := energyEquation this (k1 ks) (k2 ks) (k3 ks)).
  cbv zeta. unfold _calculateMaxDeflection. fold f.
  pose proof (bisection_loop_exits f maxIterations 0
                (net_span (geometry (config this)) * 0.5)%js) as H.
  destruct (bisection_loop f maxIterations _ _) as [v|l' r'].
  - left. exact H.
  - right. destruct H as (Hlen & Hall). repeat split; assumption.
Qed.

(** C3, amended, at the default configuration. *)
Lemma C3_solver_exits_witness :
  exists r, fst (analyze (new None)) = Normal r /\ solver_exit (new None) r.
Proof. apply (C3_solver_exits (new None)), default_config_valid. Defined.

(** ** C4: monotonicity in the fall height *)

(** C4, as stated, fails: on the 1 m net, raising the fall height from
    40 m to 70 m takes the solver from a returned midpoint beyond 0.4 to
    the fallback estimate, about 0.204: the deflection decreases. *)
Lemma C4_higher_fall_smaller_deflection :
  validateConfig (short_net 40) = [] /\
  validateConfig (short_net 70) = [] /\
  config (short_net 70) = with_fall_height (config (short_net 40)) 70 /\
  fall_height (impact (config (short_net 40))) < 70 /\
  exists r1 r2 d1 d2,
    fst (analyze (short_net 40)) = Normal r1 /\
    fst (analyze (short_net 70)) = Normal r2 /\
    max_deflection (structural_response r1) = Js.Fin d1 /\
    max_deflection (structural_response r2) = Js.Fin d2 /\
    d2 < d1.
Proof.
  assert (validateConfig (short_net 40) = []) as HV1
    by (apply short_net_config_valid; lra).
  assert (validateConfig (short_net 70) = []) as HV2
    by (apply short_net_config_valid; lra).
  repeat split; try assumption.
  - unfold short_net. cfg_fields. lra.
  - assert (0 < g (short_net 40)) as Hg1
      by (unfold short_net; cfg_fields; lra).
    assert (0 < g (short_net 70)) as Hg2
      by (unfold short_net; cfg_fields; lra).
    destruct (analyze_valid _ Hg1 HV1) as (r1 & Hr1 & _ & _ & Hd1 & _).
    destruct (analyze_valid _ Hg2 HV2) as (r2 & Hr2 & _ & _ & Hd2 & _).
    exists r1, r2, (delta_max_of (short_net 40)), (delta_max_of (short_net 70)).
    rewrite Hr1, Hr2. repeat split; try assumption.
    pose proof (short_net_returned 40) as H40.
    rewrite (short_net_fallback 70) by lra.
    specialize (H40 ltac:(lra) ltac:(lra)). lra.
Qed.

(** C4, amended: for two configurations that pass validation and differ
    only in the fall height, if the solver's loop returns for both (neither
    run ends in the fallback estimate), the larger fall height gives a
    deflection that is not smaller. *)
Theorem C4_monotone_when_loop_returns this1 this2 h2 :
  g this1 = 9.81 ->
  g this2 = 9.81 ->
  validateConfig this1 = [] ->
  config this2 = with_fall_height (config this1) h2 ->
  fall_height (impact (config this1)) < h2 ->
  loop_returns this1 ->
  loop_returns this2 ->
  validateConfig this2 = [] /\
  exists r1 r2 d1 d2,
    fst (analyze this1) = Normal r1 /\
    fst (analyze this2) = Normal r2 /\
    max_deflection (structural_response r1) = Js.Fin d1 /\
    max_deflection (structural_response r2) = Js.Fin d2 /\
    d1 <= d2.
Proof.
  intros Hg1 Hg2 HV1 Hc Hh Hret1 Hret2.
  assert (g this2 = g this1) as Hg by congruence.
  assert (0 < g this1) as Hg1' by lra.
  assert (0 < g this2) as Hg2' by lra.
  pose proof HV1 as Hv1. apply validateConfig_nil in Hv1.
  assert (checked_positive (config this2)) as Hv2
    by (apply (fall_height_valid this1 this2 h2 Hc Hv1); lra).
  pose proof Hv2 as HV2. apply validateConfig_nil in HV2.
  split; [exact HV2|].
  destruct (analyze_valid _ Hg1' HV1) as (r1 & Hr1 & _ & _ & Hd1 & _).
  destruct (analyze_valid _ Hg2' HV2) as (r2 & Hr2 & _ & _ & Hd2 & _).
  exists r1, r2, (delta_max_of this1), (delta_max_of this2).
  rewrite Hr1, Hr2. repeat split; try assumption.
  apply (loop_returns_iff this1 Hv1) in Hret1.
  apply (loop_returns_iff this2 Hv2) in Hret2.
  destruct Hret1 as (m1 & Hm1). destruct Hret2 as (m2 & Hm2).
  destruct (deflectionR_cases this1 (k1R this1) (k2R this1) (k3R this1))
    as [(m1' & Hb1 & Hdef1)|(l' & r' & Hb1 & _)]; [|congruence].
  destruct (deflectionR_cases this2 (k1R this2) (k2R this2) (k3R this2))
    as [(m2' & Hb2 & Hdef2)|(l' & r' & Hb2 & _)]; [|congruence].
  unfold delta_max_of. rewrite Hdef1, Hdef2.
  destruct (fall_height_stiffness this1 this2 h2 Hc) as (E1 & E2 & E3).
  rewrite E1, E2, E3, (fall_height_span this1 this2 h2 Hc) in Hb2.
  assert (m1' <= m2') as Hle.
  { apply (bisectR_monotone
             (energyR this1 (k1R this1) (k2R this1) (k3R this1))
             (energyR this2 (k1R this1) (k2R this1) (k3R this1)))
      with (n := maxIterations) (l := 0)
           (r := net_span (geometry (config this1)) * 0.5).
    - intros x. apply (fall_height_balance this1 this2 h2 Hg Hc).
      + assumption.
      + apply Hv1.
      + lra.
    - pose proof (span_pos this1 Hv1). lra.
    - exact Hb1.
    - exact Hb2. }
  apply Rle_max_compat_l. exact Hle.
Qed.

(** C4, amended, on the 1 m net for falls of 38 m and 41 m, where the
    loop returns for both. *)
Lemma C4_monotone_when_loop_returns_witness :
  exists r1 r2 d1 d2,
    fst (analyze (short_net 38)) = Normal r1 /\
    fst (analyze (short_net 41)) = Normal r2 /\
    max_deflection (structural_response r1) = Js.Fin d1 /\
    max_deflection (structural_response r2) = Js.Fin d2 /\
    d1 <= d2.
Proof.
  apply (C4_monotone_when_loop_returns (short_net 38) (short_net 41) 41).
  - reflexivity.
  - reflexivity.
  - apply short_net_config_valid. lra.
  - reflexivity.
  - unfold short_net. cfg_fields. lra.
  - apply loop_returns_iff; [apply short_net_valid; lra|].
    destruct (short_net_returns 38) as (mid & Hmid & _); [lra|lra|].
    exists mid. exact Hmid.
  - apply loop_returns_iff; [apply short_net_valid; lra|].
    destruct (short_net_returns 41) as (mid & Hmid & _); [lra|lra|].
    exists mid. exact Hmid.
Defined.

(** ** C5: the stiffness coefficients *)




(** ** C6: strain and stress *)



(** ** C7: the safety factor *)



(** ** C8: rejected configurations *)

(** C8: on every configuration that violates at least one checked
    positivity constraint, [analyze] throws without computing or storing a
    result; the error message is the list of all messages of
    [validateConfig], which holds the message of every violated
    constraint.  With [mass = 0] and [net_span = -1] it lists both. *)
Theorem C8_invalid_configuration_rejected :
  (forall this,
     ~ checked_positive (config this) ->
     exists msg,
       analyze this = (Throw msg, this) /\
       msg = ("Configuration errors: "
              ++ String.concat ", " (validateConfig this))%string /\
       forall x m,
         In (x, m) (checks (config this)) -> x <= 0 ->
         In m (validateConfig this) /\ carries msg m) /\
  analyze (new (Some rejected_config))
  = (Throw "Configuration errors: Net span must be positive, Impact mass must be positive",
     new (Some rejected_config)).
Proof.
  split.
  - intros this Hn. eexists. split; [|split; [reflexivity|]].
    + apply analyze_invalid, validateConfig_not_nil, Hn.
    + intros x m Hin Hx.
      assert (In m (validateConfig this)) as Hm
        by (apply validateConfig_In; eauto).
      split; [assumption|].
      apply carries_prefix, join_carries, Hm.
  - rewrite analyze_invalid by (rewrite rejected_config_errors; discriminate).
    rewrite rejected_config_errors. reflexivity.
Qed.

(** C8 at the configuration with [mass = 0] and [net_span = -1]. *)
Lemma C8_invalid_configuration_rejected_witness :
  exists msg,
    analyze (new (Some rejected_config))
    = (Throw msg, new (Some rejected_config)) /\
    carries msg "Net span must be positive" /\
    carries msg "Impact mass must be positive".
Proof.
  destruct (proj1 C8_invalid_configuration_rejected
              (new (Some rejected_config)))
    as (msg & Ha & _ & Hall).
  - cfg_fields. lra.
  - exists msg. split; [exact Ha|]. split.
    + apply (Hall (-1) "Net span must be positive"%string).
      * cbv [checks]. cfg_fields. cbn. tauto.
      * lra.
    + apply (Hall 0 "Impact mass must be positive"%string).
      * cbv [checks]. cfg_fields. cbn. tauto.
      * lra.
Defined.

(** ** C9: determinism *)

(** C9: on every configuration that passes validation, a second call of
    [analyze] on the analyzer the first call leaves behind returns the
    same result: the same deflection, stress and safety factor (and every
    other field), and leaves the same analyzer. *)
Theorem C9_analyze_twice this :
  validateConfig this = [] ->
  exists r this',
    analyze this = (Normal r, this') /\
    analyze this' = (Normal r, this') /\
    config this' = config this.
Proof.
  intros HV. destruct this as [c gv r0].
  destruct (analyze_normal _ HV) as (r & Hr). cbn [config g] in Hr.
  exists r, {| config := c; g := gv; results := Some r |}.
  split; [exact Hr|]. split; [|reflexivity].
  rewrite (validateConfig_ignores_results c gv r0 (Some r)) in HV.
  destruct (analyze_normal _ HV) as (r' & Hr'). cbn [config g] in Hr'.
  pose proof (analyze_ignores_results c gv r0 (Some r)) as Hfst.
  rewrite Hr, Hr' in Hfst. cbn [fst] in Hfst.
  injection Hfst as ->. exact Hr'.
Qed.

(** C9 at the default configuration. *)
Lemma C9_analyze_twice_witness :
  exists r this',
    analyze (new None) = (Normal r, this') /\
    analyze this' = (Normal r, this') /\
    config this' = config (new None).
Proof. apply (C9_analyze_twice (new None)), default_config_valid. Defined.

(** ** C10: the solver settings of the configuration *)

(** C10: two configurations that pass validation and differ only in
    [analysis.max_iterations] and [analysis.convergence_tolerance] give
    the same deflection, stress, safety factor, strain and design checks:
    the solver runs with its own tolerance and iteration bound. *)
Theorem C10_solver_settings_ignored this this' iters tol :
  g this' = g this ->
  config this' = with_solver_settings (config this) iters tol ->
  validateConfig this = [] ->
  validateConfig this' = [] /\
  exists r r',
    fst (analyze this) = Normal r /\
    fst (analyze this') = Normal r' /\
    structural_response r = structural_response r' /\
    design_checks r = design_checks r'.
Proof.
  intros Hg Hc HV.
  destruct this as [c gv r0], this' as [c' gv' r0'].
  cbn [config g] in Hg, Hc. subst gv' c'.
  assert (validateConfig {| config := with_solver_settings c iters tol;
                            g := gv; results := r0' |} = []) as HV'
    by exact HV.
  split; [exact HV'|].
  pose proof (analyze_ignores_solver_settings c gv r0 r0' iters tol) as H.
  destruct (analyze_normal _ HV) as (r & Hr).
  destruct (analyze_normal _ HV') as (r' & Hr').
  rewrite Hr, Hr' in H. cbn [fst] in H. destruct H as (H1 & H2 & _).
  exists r, r'. rewrite Hr, Hr'. repeat split; assumption.
Qed.

(** C10 at the default configuration, against 5 iterations and a
    tolerance of 0.5 in its settings. *)
Lemma C10_solver_settings_ignored_witness :
  exists r r',
    fst (analyze (new None)) = Normal r /\
    fst (analyze (new (Some (with_solver_settings getDefaultConfig 5 0.5))))
    = Normal r' /\
    structural_response r = structural_response r' /\
    design_checks r = design_checks r'.
Proof.
  apply (C10_solver_settings_ignored
           (new None)
           (new (Some (with_solver_settings getDefaultConfig 5 0.5))) 5 0.5).
  - reflexivity.
  - reflexivity.
  - apply default_config_valid.
Defined.

(** * Further properties of the engine and its callers *)

(** ** The design checks of [analyze] *)

Lemma analyze_checks this :
  validateConfig this = [] ->
  exists r,
    fst (analyze this) = Normal r /\
    let sr := structural_response r in
    let geo := geometry (config this) in
    design_checks r
    = {| deflection_ok :=
           (max_deflection sr <= max_deflection_ratio geo * net_span geo)%js;
         stress_ok := (safety_factor sr >= safety_factor_min geo)%js;
         strain_ok :=
           (strain sr <= strain_limit (material (config this)))%js;
         overall_safe :=
           ((max_deflection sr <= max_deflection_ratio geo * net_span geo)%js
            && (safety_factor sr >= safety_factor_min geo)%js
            && (strain sr <= strain_limit (material (config this)))%js)%bool
      |} /\
    design_limits r
    = {| max_deflection_limit :=
           (max_deflection_ratio geo * net_span geo)%js;
         min_safety_factor := safety_factor_min geo;
         max_strain_limit := strain_limit (material (config this)) |}.
Proof.
  intros HV. unfold analyze. rewrite HV. eexists. split; [reflexivity|].
  cbv zeta.
  cbn [design_checks design_limits structural_response max_deflection
       safety_factor strain].
  split; reflexivity.
Qed.

(** What the three checks compare, on real values. *)
Lemma analyze_checks_real this :
  0 < g this ->
  validateConfig this = [] ->
  exists r,
    fst (analyze this) = Normal r /\
    max_deflection (structural_response r) = Js.Fin (delta_max_of this) /\
    (deflection_ok (design_checks r) = true <->
     delta_max_of this
     <= max_deflection_ratio (geometry (config this))
        * net_span (geometry (config this))) /\
    (strain_ok (design_checks r) = true <->
     strainR this (delta_max_of this)
     <= strain_limit (material (config this))) /\
    (stress_ok (design_checks r) = true <->
     safety_factor_min (geometry (config this))
     * (elastic_modulus (material (config this))
        * strainR this (delta_max_of this))
     <= yield_strength (material (config this))
     \/ elastic_modulus (material (config this))
        * strainR this (delta_max_of this) = 0) /\
    overall_safe (design_checks r)
    = (deflection_ok (design_checks r) && stress_ok (design_checks r)
       && strain_ok (design_checks r))%bool.
Proof.
  intros Hg HV.
  pose proof HV as Hv. apply validateConfig_nil in Hv.
  destruct (analyze_valid this Hg HV)
    as (r & Hr & _ & _ & Hd & Hs & Hm & Hsf).
  destruct (analyze_checks this HV) as (r' & Hr' & Hchk & _).
  rewrite Hr in Hr'. cbn [fst] in Hr'. apply Normal_inj in Hr'. subst r'.
  cbv zeta in Hchk. rewrite Hd, Hs, Hsf in Hchk.
  exists r. rewrite Hr, Hchk.
  cbn [deflection_ok stress_ok strain_ok overall_safe].
  split; [reflexivity|]. split; [exact Hd|].
  pose proof (strainR_nonneg this (delta_max_of this) (span_pos this Hv))
    as Hs0.
  destruct Hv as (HE & _).
  set (sigma := elastic_modulus (material (config this))
                * strainR this (delta_max_of this)) in *.
  assert (0 <= sigma) as Hsig by (apply Rmult_le_pos; lra).
  repeat split.
  - rewrite mul_Fin. apply le_Fin.
  - rewrite mul_Fin. apply le_Fin.
  - apply le_Fin.
  - apply le_Fin.
  - destruct (Rlt_dec 0 sigma) as [Hpos|Hz].
    + unfold Js.ge. intros H. apply le_Fin in H. left.
      apply (Rmult_le_compat_r sigma) in H; [|lra].
      replace (yield_strength (material (config this)) / sigma * sigma)
        with (yield_strength (material (config this))) in H
        by (field; lra).
      exact H.
    + intros _. right. lra.
  - destruct (Rlt_dec 0 sigma) as [Hpos|Hz].
    + intros [H|H]; [|lra]. unfold Js.ge. apply le_Fin.
      apply (Rmult_le_reg_r sigma); [lra|].
      replace (yield_strength (material (config this)) / sigma * sigma)
        with (yield_strength (material (config this))) by (field; lra).
      exact H.
    + intros _. reflexivity.
Qed.





(** ** The solver in exact arithmetic, on any validated configuration *)







(** ** The force-deflection curve *)

(** The abscissae and the force of the curve on real values. *)
Lemma nth_map_seq (A : Type) (f : nat -> A) (n i : nat) (d : A) :
  (i < n)%nat -> nth i (map f (seq 0 n)) d = f i.
Proof.
  intros Hi. rewrite (nth_indep _ d (f 0%nat)) by now rewrite length_map, length_seq.
  rewrite map_nth, seq_nth by assumption. reflexivity.
Qed.

Lemma delta_range_Fin (L : R) :
  map (fun i : nat => (L * 0.3 * INR i / 99)%js) (seq 0 100)
  = map Js.Fin (map (fun i : nat => L * 0.3 * INR i / 99) (seq 0 100)).
Proof.
  rewrite map_map. apply map_ext. intros i. now js_fin.
Qed.

Lemma force_at_Fin (a b c x : R) :
  force_at {| k1 := Js.Fin a; k2 := Js.Fin b; k3 := Js.Fin c |} (Js.Fin x)
  = Js.Fin (a * x + b * x ^ 2 + c * x ^ 3).
Proof. unfold force_at. cbn [k1 k2 k3]. now js_fin. Qed.

Lemma force_increasing (a b c x y : R) :
  0 <= a -> 0 <= b -> 0 <= c -> 0 <= x -> x <= y ->
  a * x + b * x ^ 2 + c * x ^ 3 <= a * y + b * y ^ 2 + c * y ^ 3.
Proof.
  intros Ha Hb Hc Hx Hxy.
  assert (x ^ 2 <= y ^ 2) by nra.
  assert (x ^ 3 <= y ^ 3) by (apply pow_incr; lra).
  assert (a * x <= a * y) by nra.
  assert (b * x ^ 2 <= b * y ^ 2) by nra.
  assert (c * x ^ 3 <= c * y ^ 3) by nra.
  lra.
Qed.

(** The first trace of the plot, whatever the results. *)
Lemma force_plot_curve this :
  exists curve rest,
    _createForceDeflectionPlot this = curve :: rest /\
    scatter_x curve
    = map (fun i : nat =>
             (net_span (geometry (config this)) * 0.3 * INR i / 99)%js)
          (seq 0 100) /\
    scatter_y curve
    = map (force_at (_calculateStiffnessCoefficients this)) (scatter_x curve).
Proof.
  unfold _createForceDeflectionPlot.
  destruct (results this); eexists; eexists; repeat split.
Qed.





(** ** The plots before and after an analysis *)

Lemma stiffness_ignores_results c gv r1 r2 :
  _calculateStiffnessCoefficients {| config := c; g := gv; results := r1 |}
  = _calculateStiffnessCoefficients {| config := c; g := gv; results := r2 |}.
Proof. reflexivity. Qed.

Lemma generatePlots_without_results this random :
  results this = None ->
  exists curve,
    generatePlots this random
    = Normal {| plot_force_deflection := [curve];
                plot_safety_factor := None;
                plot_stress_distribution := None;
                plot_deflection_time := None |}.
Proof.
  intros Hres.
  unfold generatePlots, _createStressDistributionPlot,
    _createSafetyFactorChart, _createDeflectionTimePlot,
    _createForceDeflectionPlot.
  rewrite Hres. eexists. reflexivity.
Qed.

(** X8: on an analyzer that holds no results, [generatePlots] returns the
    force-deflection curve alone, without the marker of the maximum
    deflection, and [null] for the safety-factor, stress and time plots;
    it does so for every configuration, valid or not, and never throws. *)
Theorem X8_plots_without_results this random :
  results this = None ->
  exists curve,
    generatePlots this random
    = Normal {| plot_force_deflection := [curve];
                plot_safety_factor := None;
                plot_stress_distribution := None;
                plot_deflection_time := None |} /\
    List.length (scatter_x curve) = 100%nat.
Proof.
  intros Hres.
  unfold generatePlots, _createStressDistributionPlot,
    _createSafetyFactorChart, _createDeflectionTimePlot,
    _createForceDeflectionPlot.
  rewrite Hres. eexists. split; [reflexivity|].
  cbn [scatter_x]. now rewrite length_map, length_seq.
Qed.

(** X8 on a freshly constructed analyzer with the rejected configuration. *)
Lemma X8_plots_without_results_witness :
  exists curve,
    generatePlots (new (Some rejected_config)) (fun _ => 0)
    = Normal {| plot_force_deflection := [curve];
                plot_safety_factor := None;
                plot_stress_distribution := None;
                plot_deflection_time := None |} /\
    List.length (scatter_x curve) = 100%nat.
Proof. apply X8_plots_without_results. reflexivity. Defined.

(** X9: after [analyze] has returned on a configuration that passes
    validation, the force-deflection plot of the same analyzer has a second
    trace, the marker at the reported deflection with the force of the
    reported coefficients there; the safety-factor chart holds the reported
    safety factor, its dashed line is at the reported minimum, and its bar
    is green exactly when the [stress_ok] check of the result holds. *)
Theorem X9_plots_agree_with_results this :
  validateConfig this = [] ->
  exists r this' curve marker chart,
    analyze this = (Normal r, this') /\
    _createForceDeflectionPlot this' = [curve; marker] /\
    scatter_x marker = [max_deflection (structural_response r)] /\
    scatter_y marker
    = [force_at (stiffness_coefficients r)
         (max_deflection (structural_response r))] /\
    _createSafetyFactorChart this' = Some chart /\
    bar_y chart = [safety_factor (structural_response r)] /\
    bar_line_y0 chart = min_safety_factor (design_limits r) /\
    bar_line_y1 chart = min_safety_factor (design_limits r) /\
    bar_color chart
    = (if stress_ok (design_checks r) then "green" else "red")%string.
Proof.
  intros HV. destruct this as [c gv r0].
  destruct (analyze_normal _ HV) as (r & Hr). cbn [config g] in Hr.
  destruct (analyze_checks _ HV) as (r1 & Hr1 & Hchk & Hlim).
  destruct (analyze_fields _ HV) as (r2 & Hr2 & Hks & _).
  rewrite Hr in Hr1, Hr2. cbn [fst] in Hr1, Hr2.
  apply Normal_inj in Hr1, Hr2. subst r1 r2.
  cbv zeta in Hchk, Hlim. cbn [config] in Hchk, Hlim.
  rewrite (stiffness_ignores_results c gv r0 (Some r)) in Hks.
  exists r, {| config := c; g := gv; results := Some r |}.
  unfold _createForceDeflectionPlot, _createSafetyFactorChart.
  cbn [results config].
  do 3 eexists. split; [exact Hr|].
  split; [reflexivity|]. cbn [scatter_x scatter_y bar_y bar_line_y0
                              bar_line_y1 bar_color].
  rewrite Hks, Hchk, Hlim. cbn [stress_ok min_safety_factor].
  repeat split.
Qed.

(** X9 at the default configuration. *)
Lemma X9_plots_agree_with_results_witness :
  exists r this' chart,
    analyze (new None) = (Normal r, this') /\
    _createSafetyFactorChart this' = Some chart /\
    bar_color chart
    = (if stress_ok (design_checks r) then "green" else "red")%string.
Proof.
  destruct (X9_plots_agree_with_results (new None) default_config_valid)
    as (r & this' & curve & marker & chart & Ha & _ & _ & _ & Hc & _ & _ & _
        & Hcol).
  exists r, this', chart. repeat split; assumption.
Defined.

(** ** The strand-stress sample *)

Lemma strand_stress_Fin (sigma y u : R) :
  strand_stress (Js.Fin sigma) y u
  = Js.Fin (Rmin (Rmax (sigma * (1 + (u - 0.5) * 0.2)) 0) (y * 1.2)).
Proof. unfold strand_stress. js_fin. now rewrite max_Fin, min_Fin. Qed.

Lemma strand_stress_clamped (sigma y u : R) :
  0 <= y ->
  0 <= Rmin (Rmax (sigma * (1 + (u - 0.5) * 0.2)) 0) (y * 1.2) <= y * 1.2.
Proof.
  intros Hy. split; [|apply Rmin_r].
  apply Rmin_glb; [apply Rmax_r|lra].
Qed.

Lemma strand_stress_band (sigma y u : R) :
  0 <= sigma -> 0 <= u < 1 -> sigma * 1.1 <= y * 1.2 ->
  Rmin (Rmax (sigma * (1 + (u - 0.5) * 0.2)) 0) (y * 1.2)
  = sigma * (1 + (u - 0.5) * 0.2) /\
  sigma * 0.9 <= sigma * (1 + (u - 0.5) * 0.2) <= sigma * 1.1.
Proof.
  intros Hs Hu Hy.
  assert (sigma * 0.9 <= sigma * (1 + (u - 0.5) * 0.2) <= sigma * 1.1)
    as Hb by nra.
  split; [|exact Hb].
  rewrite Rmax_left by nra. apply Rmin_left. lra.
Qed.

Lemma Array_from_small (A : Type) (len : R) (f : nat -> A) :
  len < 4294967296 ->
  Array_from len f = Normal (map f (seq 0 (Z.to_nat (Int_part len)))).
Proof.
  intros Hlen. unfold Array_from.
  assert (Int_part len < 2 ^ 32)%Z as H.
  { apply lt_IZR. destruct (base_Int_part len) as [Hle _].
    change (2 ^ 32)%Z with 4294967296%Z. lra. }
  apply Z.ltb_lt in H. now rewrite H.
Qed.

(** The histogram after an analysis, on real values. *)
Lemma stress_plot_after_analysis this random :
  0 < g this ->
  validateConfig this = [] ->
  num_strands (geometry (config this)) < 4294967296 ->
  exists r this' h,
    analyze this = (Normal r, this') /\
    _createStressDistributionPlot this' random = Normal (Some h) /\
    hist_x h
    = map (fun i =>
             Js.Fin
               (Rmin (Rmax (elastic_modulus (material (config this))
                            * strainR this (delta_max_of this)
                            * (1 + (random i - 0.5) * 0.2)) 0)
                     (yield_strength (material (config this)) * 1.2)
                / 1e6))
          (seq 0 (Z.to_nat (Int_part (num_strands (geometry (config this)))))) /\
    hist_line_x0 h
    = Js.Fin (yield_strength (material (config this)) / 1e6).
Proof.
  intros Hg HV Hn.
  destruct (analyze_valid this Hg HV) as (r & Hr & _ & _ & _ & _ & Hm & _).
  exists r, {| config := config this; g := g this; results := Some r |}.
  unfold _createStressDistributionPlot. cbn [results config].
  rewrite (Array_from_small _ _ _ Hn), Hm.
  eexists. split; [exact Hr|]. split; [reflexivity|].
  cbn [hist_x hist_line_x0]. split.
  - rewrite map_map. apply map_ext. intros i.
    rewrite strand_stress_Fin. now js_fin.
  - now js_fin.
Qed.





(** ** The deflection-time response *)

Lemma response_Fin (d t : R) :
  (Js.Fin d * (1 - Js.exp (-5 * Js.Fin t)) * Js.exp (-0.5 * Js.Fin t))%js
  = Js.Fin (d * (1 - exp (-5 * t)) * exp (-0.5 * t)).
Proof. js_fin. cbn [Js.exp]. now js_fin. Qed.

Lemma exp_neg_le_1 (x : R) : 0 <= x -> 0 < exp (- x) <= 1.
Proof.
  intros Hx. split; [apply exp_pos|].
  rewrite <- exp_0. destruct (Req_dec_T x 0) as [->|Hne].
  - rewrite Ropp_0. lra.
  - left. apply exp_increasing. lra.
Qed.

Lemma response_bounds (d t : R) :
  0 <= d -> 0 <= t ->
  0 <= d * (1 - exp (-5 * t)) * exp (-0.5 * t) <= d.
Proof.
  intros Hd Ht.
  pose proof (exp_neg_le_1 (5 * t) ltac:(lra)) as H5.
  pose proof (exp_neg_le_1 (0.5 * t) ltac:(lra)) as H05.
  replace (-5 * t) with (- (5 * t)) by lra.
  replace (-0.5 * t) with (- (0.5 * t)) by lra.
  set (a := exp (- (5 * t))) in *. set (b := exp (- (0.5 * t))) in *.
  assert (0 <= (1 - a) * b <= 1) by nra.
  split; nra.
Qed.



(** ** Report data *)

(** X13: [generateReportData] never runs the analysis: its guard
    [!this.results] is false for the empty results object too.  It leaves
    the analyzer as it is and reports the results the analyzer holds; on an
    analyzer without results, for every configuration (valid or not), it
    returns a report with empty results, the force-deflection curve alone
    and no other plot. *)
Theorem X13_report_never_analyzes this random iso_now :
  (forall plots,
     generatePlots this random = Normal plots ->
     exists report,
       generateReportData this random iso_now = (Normal report, this) /\
       report_results report = results this /\
       report_plots report = plots /\
       report_configuration report = config this) /\
  (results this = None ->
   exists report curve,
     generateReportData this random iso_now = (Normal report, this) /\
     report_results report = None /\
     report_plots report
     = {| plot_force_deflection := [curve];
          plot_safety_factor := None;
          plot_stress_distribution := None;
          plot_deflection_time := None |}).
Proof.
  assert (forall plots,
     generatePlots this random = Normal plots ->
     exists report,
       generateReportData this random iso_now = (Normal report, this) /\
       report_results report = results this /\
       report_plots report = plots /\
       report_configuration report = config this) as Hgen.
  { intros plots Hp. unfold generateReportData, results_missing.
    rewrite Hp. eexists. repeat split. }
  split; [exact Hgen|].
  intros Hres.
  destruct (generatePlots_without_results this random Hres) as (curve & Hp).
  destruct (Hgen _ Hp) as (report & Hrep & Hr & Hpl & _).
  exists report, curve. rewrite Hres in Hr. repeat split; assumption.
Qed.

(** X13 on a freshly constructed analyzer with the rejected
    configuration. *)
Lemma X13_report_never_analyzes_witness :
  exists report curve,
    generateReportData (new (Some rejected_config)) (fun _ => 0) ""
    = (Normal report, new (Some rejected_config)) /\
    report_results report = None /\
    report_plots report
    = {| plot_force_deflection := [curve];
         plot_safety_factor := None;
         plot_stress_distribution := None;
         plot_deflection_time := None |}.
Proof.
  apply (proj2 (X13_report_never_analyzes
                  (new (Some rejected_config)) (fun _ => 0) "")).
  reflexivity.
Defined.

Lemma substring_prefix (a b : string) :
  substring 0 (String.length a) (a ++ b) = a.
Proof.
  induction a as [|ch a IH]; cbn.
  - destruct b; reflexivity.
  - now rewrite IH.
Qed.

Lemma string_length_app (a b : string) :
  String.length (a ++ b) = (String.length a + String.length b)%nat.
Proof. induction a as [|ch a IH]; cbn; [reflexivity|now rewrite IH]. Qed.

Lemma replace_first_app (c d : Ascii.ascii) (a b : string) :
  has_char c a = false ->
  replace_first c d (a ++ String c b) = (a ++ String d b)%string.
Proof.
  induction a as [|ch a IH]; cbn.
  - intros _. now rewrite Ascii.eqb_refl.
  - destruct (Ascii.eqb ch c); cbn; [discriminate|].
    intros H. now rewrite IH.
Qed.

(** X14: the timestamp of a report is the date and the time of day of the
    ISO instant joined by a space: for an instant [date T time rest] with
    a 10-character date without [T] and an 8-character time, it is
    [date time]; fractions of a second and the zone are dropped. *)
Theorem X14_timestamp_of_iso (date time rest : string) :
  String.length date = 10%nat ->
  has_char "T" date = false ->
  String.length time = 8%nat ->
  timestamp_of (date ++ "T" ++ time ++ rest) = (date ++ " " ++ time)%string.
Proof.
  intros Hd HT Ht. unfold timestamp_of.
  replace (date ++ "T" ++ time ++ rest)%string
    with ((date ++ "T" ++ time) ++ rest)%string.
  - replace 19%nat with (String.length (date ++ "T" ++ time)).
    + rewrite substring_prefix.
      apply (replace_first_app "T" " " date time HT).
    + rewrite string_length_app. cbn [append String.length].
      rewrite Hd, Ht. reflexivity.
  - rewrite string_app_assoc. f_equal.
Qed.

(** X14 at [2024-05-17T08:30:15.123Z]. *)
Lemma X14_timestamp_of_iso_witness :
  timestamp_of "2024-05-17T08:30:15.123Z" = "2024-05-17 08:30:15"%string.
Proof.
  apply (X14_timestamp_of_iso "2024-05-17" "08:30:15" ".123Z");
    reflexivity.
Defined.

(** ** The handlers of the application *)

(** X15: [handleRunAnalysis] on a configured application.  When the
    configuration violates a checked constraint it alerts
    ["Analysis failed: Configuration errors: "] followed by all messages of
    the validation and keeps the results and the tab it had; when the
    configuration passes validation it stores the result of [analyze],
    shows the results tab and alerts nothing.  Either way it ends with
    [loading] off. *)
Theorem X15_run_analysis st c :
  currentConfig st = Some c ->
  (~ checked_positive c ->
   handleRunAnalysis st
   = ({| currentConfig := Some c;
         analysisResults := analysisResults st;
         plots := plots st;
         loading := false;
         activeTab := activeTab st |},
      [("Analysis failed: Configuration errors: "
        ++ String.concat ", " (validateConfig (new (Some c))))%string])) /\
  (checked_positive c ->
   exists r,
     fst (analyze (new (Some c))) = Normal r /\
     handleRunAnalysis st
     = ({| currentConfig := Some c;
           analysisResults := Some r;
           plots := plots st;
           loading := false;
           activeTab := "results" |},
        [])).
Proof.
  intros Hc. split.
  - intros Hn. unfold handleRunAnalysis. rewrite Hc.
    rewrite (analyze_invalid (new (Some c)))
      by (apply validateConfig_not_nil; exact Hn).
    reflexivity.
  - intros Hv.
    assert (validateConfig (new (Some c)) = []) as HV
      by (apply validateConfig_nil; exact Hv).
    destruct (analyze_normal _ HV) as (r & Hr).
    exists r. unfold handleRunAnalysis. rewrite Hc, Hr. split; reflexivity.
Qed.

(** X15 on an application configured with the rejected configuration. *)
Lemma X15_run_analysis_witness :
  handleRunAnalysis
    {| currentConfig := Some rejected_config; analysisResults := None;
       plots := None; loading := false; activeTab := "configuration" |}
  = ({| currentConfig := Some rejected_config; analysisResults := None;
        plots := None; loading := false; activeTab := "configuration" |},
     ["Analysis failed: Configuration errors: Net span must be positive, Impact mass must be positive"%string]).
Proof.
  destruct (X15_run_analysis
              {| currentConfig := Some rejected_config;
                 analysisResults := None; plots := None; loading := false;
                 activeTab := "configuration" |}
              rejected_config eq_refl) as [Hbad _].
  rewrite Hbad.
  - rewrite rejected_config_errors. reflexivity.
  - cfg_fields. lra.
Defined.

(** X16: once the application holds analysis results,
    [handleGeneratePlots] does not analyse on the analyzer it constructs:
    for every configuration it stores plots that hold the force-deflection
    curve alone and [null] for the safety-factor, stress and time plots,
    shows the visualization tab and alerts nothing.  So it is after a
    successful [handleRunAnalysis]. *)
Theorem X16_plots_after_results st c res random :
  currentConfig st = Some c ->
  analysisResults st = Some res ->
  exists curve,
    handleGeneratePlots st random
    = ({| currentConfig := Some c;
          analysisResults := Some res;
          plots := Some {| plot_force_deflection := [curve];
                           plot_safety_factor := None;
                           plot_stress_distribution := None;
                           plot_deflection_time := None |};
          loading := false;
          activeTab := "visualization" |},
       []).
Proof.
  intros Hc Hres. unfold handleGeneratePlots. rewrite Hc, Hres.
  destruct (generatePlots_without_results (new (Some c)) random eq_refl)
    as (curve & Hp).
  rewrite Hp. exists curve. reflexivity.
Qed.

(** X16 after [handleRunAnalysis] on the default configuration. *)
Lemma X16_plots_after_results_witness :
  exists st1 alerts1 curve st2,
    handleRunAnalysis
      {| currentConfig := Some getDefaultConfig; analysisResults := None;
         plots := None; loading := false; activeTab := "configuration" |}
    = (st1, alerts1) /\
    handleGeneratePlots st1 (fun _ => 0.25) = (st2, []) /\
    plots st2
    = Some {| plot_force_deflection := [curve];
              plot_safety_factor := None;
              plot_stress_distribution := None;
              plot_deflection_time := None |}.
Proof.
  destruct (analyze_normal (new (Some getDefaultConfig)) default_config_valid)
    as (r & Hr).
  destruct (X16_plots_after_results
              {| currentConfig := Some getDefaultConfig;
                 analysisResults := Some r; plots := None; loading := false;
                 activeTab := "results" |}
              getDefaultConfig r (fun _ => 0.25) eq_refl eq_refl)
    as (curve & Hp).
  eexists. exists []. exists curve. eexists. split; [|split].
  - unfold handleRunAnalysis. cbn [currentConfig]. rewrite Hr. reflexivity.
  - exact Hp.
  - reflexivity.
Defined.



(** ** The fields the analysis reads *)

Lemma analyze_same_inputs c c' gv r1 r2 :
  same_inputs c c' ->
  match fst (analyze {| config := c; g := gv; results := r1 |}),
        fst (analyze {| config := c'; g := gv; results := r2 |}) with
  | Normal r, Normal r' => same_outcome r r'
  | Throw m, Throw m' => m = m'
  | _, _ => False
  end.
Proof.
  destruct c as [sn [mn E Y rho A sl] [L n ia sf ratio] [m h v] an].
  destruct c' as [sn' [mn' E' Y' rho' A' sl'] [L' n' ia' sf' ratio']
                  [m' h' v'] an'].
  unfold same_inputs.
  cbn [material geometry impact elastic_modulus yield_strength
       cross_section_area strain_limit net_span num_strands
       safety_factor_min max_deflection_ratio mass fall_height].
  intros (<- & <- & <- & <- & <- & <- & <- & <- & <- & <-).
  unfold analyze, validateConfig, _calculateStiffnessCoefficients,
    _calculateMaxDeflection, _calculateMaxStress, energyEquation.
  cbn [config g material geometry impact elastic_modulus yield_strength
       cross_section_area strain_limit net_span num_strands
       safety_factor_min max_deflection_ratio mass fall_height].
  match goal with |- context [(0 <? ?k)%nat] => destruct (0 <? k)%nat end;
    cbn [fst]; [reflexivity|].
  repeat split.
Qed.

(** X18: the analysis reads ten fields of the configuration only.  Two
    configurations that agree on them (differing, say, in density,
    installation angle, impact velocity, damping or names) are both
    rejected with the same message or both analysed with the same
    structural response, design checks, design limits and stiffness
    coefficients. *)
Theorem X18_unread_fields this this' :
  g this' = g this ->
  same_inputs (config this) (config this') ->
  match fst (analyze this), fst (analyze this') with
  | Normal r, Normal r' =>
      structural_response r = structural_response r' /\
      design_checks r = design_checks r' /\
      design_limits r = design_limits r' /\
      stiffness_coefficients r = stiffness_coefficients r'
  | Throw m, Throw m' => m = m'
  | _, _ => False
  end.
Proof.
  intros Hg Hsame. destruct this as [c gv r0], this' as [c' gv' r0'].
  cbn [g config] in Hg, Hsame. subst gv'.
  exact (analyze_same_inputs c c' gv r0 r0' Hsame).
Qed.

(** X18 for the default configuration against one with another impact
    velocity, density and installation angle. *)
Lemma X18_unread_fields_witness :
  match fst (analyze (new None)),
        fst (analyze (new (Some unread_fields_changed))) with
  | Normal r, Normal r' =>
      structural_response r = structural_response r' /\
      design_checks r = design_checks r' /\
      design_limits r = design_limits r' /\
      stiffness_coefficients r = stiffness_coefficients r'
  | Throw m, Throw m' => m = m'
  | _, _ => False
  end.
Proof.
  apply (X18_unread_fields (new None) (new (Some unread_fields_changed))).
  - reflexivity.
  - repeat split.
Defined.
